(** * golang.org/x/net/http/httpproxy: proxy selection from HTTP_PROXY,
      HTTPS_PROXY and NO_PROXY

    A shallow embedding of [http/httpproxy/proxy.go].  Go strings are byte
    strings, modelled by [string] (a list of 8-bit [ascii]); Go [int]
    indices are modelled by [Z]; slicing and indexing can panic, which the
    [exec] type records.  The Go standard library functions that the package
    calls on plain byte strings ([strings.Split], [net.SplitHostPort], ...)
    are modelled here after their Go definitions; the table-driven or large
    ones ([url.Parse], [idna.Lookup.ToASCII], [net.ParseIP], the Unicode
    paths of [strings.ToLower] and [strings.TrimSpace]) are the methods of
    the class [GoLibrary], so that every general theorem holds for any
    implementation of them. *)

From Stdlib Require Import String Ascii List ZArith NArith Bool Lia.
Import ListNotations.

Local Open Scope string_scope.
Local Open Scope Z_scope.

(** ** Run-time outcome of Go code: a value, or a panic *)

Inductive exec (A : Type) : Type :=
| Ret (a : A)
| Panic.
Arguments Ret {A} a.
Arguments Panic {A}.

Definition bind {A B : Type} (m : exec A) (k : A -> exec B) : exec B :=
  match m with
  | Ret a => k a
  | Panic => Panic
  end.

Notation "x <- m ;; k" := (bind m (fun x => k))
  (at level 61, m at next level, right associativity).

(** ** Byte strings *)

Definition len (s : string) : Z := Z.of_nat (String.length s).

Definition byte_val (c : ascii) : Z := Z.of_N (N_of_ascii c).

Fixpoint str_take (n : nat) (s : string) : string :=
  match n, s with
  | S n', String c s' => String c (str_take n' s')
  | _, _ => EmptyString
  end.

Fixpoint str_drop (n : nat) (s : string) : string :=
  match n, s with
  | S n', String _ s' => str_drop n' s'
  | _, _ => s
  end.

(** [s[i]]: panics when [i] is out of range. *)
Definition index_at (s : string) (i : Z) : exec ascii :=
  if (0 <=? i) && (i <? len s) then
    match String.get (Z.to_nat i) s with
    | Some c => Ret c
    | None => Panic
    end
  else Panic.

(** [s[:i]]: panics when [i] is out of range. *)
Definition slice_to (s : string) (i : Z) : exec string :=
  if (0 <=? i) && (i <=? len s) then Ret (str_take (Z.to_nat i) s) else Panic.

(** [s[i:]]: panics when [i] is out of range. *)
Definition slice_from (s : string) (i : Z) : exec string :=
  if (0 <=? i) && (i <=? len s) then Ret (str_drop (Z.to_nat i) s) else Panic.

(** ** package strings (byte-level parts) *)

Fixpoint last_index_from (c : ascii) (s : string) (i acc : Z) : Z :=
  match s with
  | EmptyString => acc
  | String x s' => last_index_from c s' (i + 1) (if Ascii.eqb x c then i else acc)
  end.

(** [strings.LastIndex(s, sep)] for a one-byte [sep]: the index of the last
    occurrence, or -1. *)
Definition strings_LastIndex (s : string) (sep : ascii) : Z :=
  last_index_from sep s 0 (-1).

Fixpoint index_from (c : ascii) (s : string) (i : Z) : Z :=
  match s with
  | EmptyString => -1
  | String x s' => if Ascii.eqb x c then i else index_from c s' (i + 1)
  end.

(** [strings.IndexByte(s, c)] (bytealg.IndexByteString). *)
Definition strings_IndexByte (s : string) (c : ascii) : Z := index_from c s 0.

(** [strings.HasSuffix]: [len(s) >= len(suffix) && s[len(s)-len(suffix):] == suffix]. *)
Definition strings_HasSuffix (s suffix : string) : bool :=
  (len suffix <=? len s) &&
  String.eqb (str_drop (String.length s - String.length suffix) s) suffix.

(** [strings.HasPrefix]. *)
Definition strings_HasPrefix (s pre : string) : bool := String.prefix pre s.

(** [strings.Split(s, sep)] for a one-byte [sep]; the result is never empty,
    and [Split("", sep)] is the list holding the empty string. *)
Fixpoint strings_Split (s : string) (sep : ascii) : list string :=
  match s with
  | EmptyString => [EmptyString]
  | String c s' =>
      if Ascii.eqb c sep then EmptyString :: strings_Split s' sep
      else match strings_Split s' sep with
           | [] => [String c EmptyString]
           | t :: ts => String c t :: ts
           end
  end.

(** [utf8.RuneSelf]: bytes below it are the ASCII characters. *)
Definition utf8_RuneSelf : Z := 128.

Definition lower_byte (c : ascii) : ascii :=
  if (byte_val "A" <=? byte_val c) && (byte_val c <=? byte_val "Z")
  then ascii_of_N (N_of_ascii c + 32)
  else c.

Fixpoint map_bytes (f : ascii -> ascii) (s : string) : string :=
  match s with
  | EmptyString => EmptyString
  | String c s' => String (f c) (map_bytes f s')
  end.

(** The table [asciiSpace] of package strings: tab, newline, vertical tab,
    form feed, carriage return and space. *)
Definition asciiSpace (c : ascii) : bool :=
  let v := byte_val c in
  (v =? 9) || (v =? 10) || (v =? 11) || (v =? 12) || (v =? 13) || (v =? 32).

Fixpoint trim_left_ascii (s : string) : string :=
  match s with
  | EmptyString => EmptyString
  | String c s' => if asciiSpace c then trim_left_ascii s' else s
  end.

Fixpoint trim_right_ascii (s : string) : string :=
  match s with
  | EmptyString => EmptyString
  | String c s' =>
      match trim_right_ascii s' with
      | EmptyString => if asciiSpace c then EmptyString else String c EmptyString
      | t => String c t
      end
  end.

(** ** Values of the Go standard library used by the package *)

(** A Go [error]: the errors of the library functions, and the one error
    the package itself builds with
    [fmt.Errorf("invalid proxy address %q: %v", proxy, err)]. *)
Inductive error : Type :=
| url_Error (op url reason : string)
| idna_Error (reason : string)
| invalid_proxy_address (proxy : string) (err : error).

(** [url.URL] (the fields that [url.Parse] fills). *)
Record URL : Type := mkURL {
  Scheme : string;
  Opaque : string;
  User : option string;
  Host : string;
  Path : string;
  RawQuery : string;
  Fragment : string
}.

(** [net.IP]: a slice of bytes, of length 4 or 16 when valid. *)
Definition IP : Type := list Z.

(** The library functions whose definition is a table or a large parser. *)
Class GoLibrary : Type := {
  (** [url.Parse] *)
  url_Parse : string -> URL + error;
  (** [idna.Lookup.ToASCII] *)
  idna_Lookup_ToASCII : string -> string + error;
  (** [net.ParseIP]; [None] is the nil IP *)
  net_ParseIP : string -> option IP;
  (** [strings.Map(unicode.ToLower, s)], the path [strings.ToLower] takes
      when [s] has a non-ASCII byte *)
  unicode_ToLower : string -> string;
  (** [strings.TrimFunc(s, unicode.IsSpace)], what [strings.TrimSpace]
      computes when [s] has a non-ASCII byte *)
  unicode_TrimSpace : string -> string
}.

(** ** package net *)

Definition IPv6loopback : IP := [0;0;0;0;0;0;0;0;0;0;0;0;0;0;0;1].

(** [isZeros] *)
Definition isZeros (p : list Z) : bool := forallb (fun b => b =? 0) p.

(** [IP.To4]: a 4-byte address as it is, the last four bytes of a 16-byte
    IPv4-mapped address, nil otherwise. *)
Definition IP_To4 (ip : IP) : option IP :=
  if Nat.eqb (List.length ip) 4 then Some ip
  else if Nat.eqb (List.length ip) 16 && isZeros (firstn 10 ip)
          && (nth 10 ip 0 =? 255) && (nth 11 ip 0 =? 255)
  then Some (skipn 12 ip)
  else None.

(** [IP.IsLoopback]: [ip4[0] == 127] for an IPv4 address, equality with
    [::1] otherwise. *)
Definition IP_IsLoopback (ip : IP) : bool :=
  match IP_To4 ip with
  | Some ip4 => match ip4 with
                | b :: _ => b =? 127
                | [] => false
                end
  | None => if list_eq_dec Z.eq_dec ip IPv6loopback then true else false
  end.

(** [net.JoinHostPort]: the host is bracketed when it contains a colon. *)
Definition net_JoinHostPort (host port : string) : string :=
  if 0 <=? strings_IndexByte host ":" then "[" ++ host ++ "]:" ++ port
  else host ++ ":" ++ port.

(** [net.SplitHostPort]: host and port, or the reason of the [AddrError]. *)
Definition net_SplitHostPort (hostport : string) : (string * string) + string :=
  let missingPort := "missing port in address" in
  let tooManyColons := "too many colons in address" in
  let i := strings_LastIndex hostport ":" in
  if i <? 0 then inr missingPort else
  let finish (host : string) (j k : Z) :=
    if 0 <=? strings_IndexByte (str_drop (Z.to_nat j) hostport) "[" then
      inr "unexpected '[' in address"
    else if 0 <=? strings_IndexByte (str_drop (Z.to_nat k) hostport) "]" then
      inr "unexpected ']' in address"
    else inl (host, str_drop (Z.to_nat (i + 1)) hostport) in
  if strings_HasPrefix hostport "[" then
    let e := strings_IndexByte hostport "]" in
    if e <? 0 then inr "missing ']' in address"
    else if e + 1 =? len hostport then inr missingPort
    else if e + 1 =? i then
      finish (str_take (Z.to_nat (e - 1)) (str_drop 1 hostport)) 1 (e + 1)
    else if Ascii.eqb (match String.get (Z.to_nat (e + 1)) hostport with
                       | Some c => c
                       | None => zero
                       end) ":"
    then inr tooManyColons
    else inr missingPort
  else
    let host := str_take (Z.to_nat i) hostport in
    if 0 <=? strings_IndexByte host ":" then inr tooManyColons
    else finish host 0 0.

(** ** package net/url: the accessors of the host *)

Fixpoint all_digits (s : string) : bool :=
  match s with
  | EmptyString => true
  | String c s' =>
      (byte_val "0" <=? byte_val c) && (byte_val c <=? byte_val "9") && all_digits s'
  end.

(** [validOptionalPort]: empty, or a colon followed by digits. *)
Definition validOptionalPort (port : string) : bool :=
  match port with
  | EmptyString => true
  | String c rest => Ascii.eqb c ":" && all_digits rest
  end.

(** [splitHostPort] of net/url: unlike [net.SplitHostPort] it never fails. *)
Definition url_splitHostPort (hostPort : string) : string * string :=
  let colon := strings_LastIndex hostPort ":" in
  let '(host, port) :=
    if negb (colon =? -1) && validOptionalPort (str_drop (Z.to_nat colon) hostPort)
    then (str_take (Z.to_nat colon) hostPort, str_drop (Z.to_nat (colon + 1)) hostPort)
    else (hostPort, EmptyString) in
  if strings_HasPrefix host "[" && strings_HasSuffix host "]"
  then (str_take (String.length host - 2) (str_drop 1 host), port)
  else (host, port).

(** [URL.Hostname] *)
Definition URL_Hostname (u : URL) : string := fst (url_splitHostPort (Host u)).

(** [URL.Port] *)
Definition URL_Port (u : URL) : string := snd (url_splitHostPort (Host u)).

(** ** package httpproxy *)

(** [isASCII]: no byte of [s] is [utf8.RuneSelf] or above. *)
Fixpoint isASCII (s : string) : bool :=
  match s with
  | EmptyString => true
  | String c s' => if byte_val c >=? utf8_RuneSelf then false else isASCII s'
  end.

(** [Config]: the values of HTTP_PROXY, HTTPS_PROXY and NO_PROXY. *)
Record Config : Type := mkConfig {
  HTTPProxy : string;
  HTTPSProxy : string;
  NoProxy : string
}.

(** [hasPort]: the last colon comes after the last closing bracket. *)
Definition hasPort (s : string) : bool :=
  strings_LastIndex s ":" >? strings_LastIndex s "]".

(** [portMap], and the lookup [portMap[k]] that yields the empty string for a
    missing key. *)
Definition portMap : list (string * string) :=
  [("http", "80"); ("https", "443"); ("socks5", "1080")].

Fixpoint map_index (m : list (string * string)) (k : string) : string :=
  match m with
  | [] => EmptyString
  | (k', v) :: m' => if String.eqb k' k then v else map_index m' k
  end.

(** The statement [if hasPort(x) { x = x[:strings.LastIndex(x, ":")] }],
    which [useProxy] runs on the address and on every entry. *)
Definition stripPort (x : string) : exec string :=
  if hasPort x then slice_to x (strings_LastIndex x ":") else Ret x.

(** Go's short-circuit [&&] and [||] over operands that can panic. *)
Definition and_then (a b : exec bool) : exec bool :=
  x <- a ;; if x then b else Ret false.

Definition or_else (a b : exec bool) : exec bool :=
  x <- a ;; if x then Ret true else b.

Infix "&&&" := and_then (at level 40, left associativity).
Infix "|||" := or_else (at level 50, left associativity).

(** What one iteration of the loop over the entries does: [continue] (also at
    the end of the body), or [return b]. *)
Inductive iteration : Type :=
| Continue
| Return (b : bool).

Section Package.

Context {lib : GoLibrary}.

(** [strings.ToLower]: byte-wise on ASCII strings, Unicode-aware otherwise. *)
Definition strings_ToLower (s : string) : string :=
  if isASCII s then map_bytes lower_byte s else unicode_ToLower s.

(** [strings.TrimSpace]: on ASCII strings the white space is [asciiSpace]. *)
Definition strings_TrimSpace (s : string) : string :=
  if isASCII s then trim_right_ascii (trim_left_ascii s) else unicode_TrimSpace s.

(** [idnaASCII] *)
Definition idnaASCII (v : string) : string + error :=
  if isASCII v then inl v else idna_Lookup_ToASCII v.

(** [canonicalAddr]: [url.Host], always with a ":port" suffix. *)
Definition canonicalAddr (url : URL) : string :=
  let addr := URL_Hostname url in
  let addr := match idnaASCII addr with
              | inl v => v
              | inr _ => addr
              end in
  let port := URL_Port url in
  let port := if String.eqb port "" then map_index portMap (Scheme url) else port in
  net_JoinHostPort addr port.

(** The body of the loop [for _, p := range strings.Split(noProxy, ",")]. *)
Definition noProxyEntry (addr p : string) : exec iteration :=
  let p := strings_ToLower (strings_TrimSpace p) in
  if len p =? 0 then Ret Continue else
  p <- stripPort p ;;
  if String.eqb addr p then Ret (Return false) else
  if len p =? 0 then Ret Continue else
  c1 <- (x <- index_at p 0 ;; Ret (Ascii.eqb x "."))
        &&& (Ret (strings_HasSuffix addr p)
             ||| (p1 <- slice_from p 1 ;; Ret (String.eqb addr p1))) ;;
  if c1 then Ret (Return false) else
  c2 <- (x <- index_at p 0 ;; Ret (negb (Ascii.eqb x ".")))
        &&& Ret (strings_HasSuffix addr p)
        &&& (x <- index_at addr (len addr - len p - 1) ;; Ret (Ascii.eqb x ".")) ;;
  if c2 then Ret (Return false) else
  Ret Continue.

Fixpoint noProxyLoop (addr : string) (ps : list string) : exec bool :=
  match ps with
  | [] => Ret true
  | p :: ps' =>
      r <- noProxyEntry addr p ;;
      match r with
      | Return b => Ret b
      | Continue => noProxyLoop addr ps'
      end
  end.

(** The address as the loop compares it: lower-cased, trimmed, without port. *)
Definition hostOnly (addr : string) : exec string :=
  stripPort (strings_ToLower (strings_TrimSpace addr)).

(** [useProxy]: whether requests to [addr] should use a proxy. *)
Definition useProxy (cfg : Config) (addr : string) : exec bool :=
  if len addr =? 0 then Ret true else
  match net_SplitHostPort addr with
  | inr _ => Ret false
  | inl (host, _) =>
      if String.eqb host "localhost" then Ret false else
      if match net_ParseIP host with
         | Some ip => IP_IsLoopback ip
         | None => false
         end
      then Ret false else
      let noProxy := NoProxy cfg in
      if String.eqb noProxy "*" then Ret false else
      addr <- hostOnly addr ;;
      noProxyLoop addr (strings_Split noProxy ",")
  end.

(** The local variable [proxy] of [ProxyForURL] once it is chosen. *)
Definition candidateProxy (cfg : Config) (reqURL : URL) : string :=
  let proxy := if String.eqb (Scheme reqURL) "https" then HTTPSProxy cfg
               else EmptyString in
  if String.eqb proxy "" then HTTPProxy cfg else proxy.

(** The test [proxyURL.Scheme != "http" && proxyURL.Scheme != "https" &&
    proxyURL.Scheme != "socks5"]. *)
Definition unknownScheme (u : URL) : bool :=
  negb (String.eqb (Scheme u) "http") && negb (String.eqb (Scheme u) "https")
  && negb (String.eqb (Scheme u) "socks5").

(** [Config.ProxyForURL]: the proxy URL ([None] is nil) and the error. *)
Definition ProxyForURL (cfg : Config) (reqURL : URL) : exec (option URL * option error) :=
  let proxy := candidateProxy cfg reqURL in
  if String.eqb proxy "" then Ret (None, None) else
  use <- useProxy cfg (canonicalAddr reqURL) ;;
  if negb use then Ret (None, None) else
  let parsed := url_Parse proxy in
  let bogus := match parsed with
               | inr _ => true
               | inl proxyURL => unknownScheme proxyURL
               end in
  let repaired := if bogus then
                    match url_Parse ("http://" ++ proxy) with
                    | inl proxyURL' => Some proxyURL'
                    | inr _ => None
                    end
                  else None in
  match repaired with
  | Some proxyURL' => Ret (Some proxyURL', None)
  | None =>
      match parsed with
      | inr err => Ret (None, Some (invalid_proxy_address proxy err))
      | inl proxyURL => Ret (Some proxyURL, None)
      end
  end.

End Package.

(** ** A reference implementation of the library

    [GoLibrary] is implemented here to run the package on concrete inputs:
    [url.Parse] without percent-decoding and host character checks,
    [net.ParseIP] for dotted IPv4 and colon-separated IPv6 text, the Unicode
    case and space tables cut down to the Latin-1 letters, KELVIN SIGN and
    NO-BREAK SPACE, and [idna.Lookup.ToASCII] as a table of recorded
    conversions. *)

Module Std.

(** [strings.Cut(s, sep)] for a one-byte [sep]. *)
Fixpoint cut (s : string) (sep : ascii) : string * string * bool :=
  match s with
  | EmptyString => (EmptyString, EmptyString, false)
  | String c s' =>
      if Ascii.eqb c sep then (EmptyString, s', true)
      else let '(a, b, f) := cut s' sep in (String c a, b, f)
  end.

Definition between (lo hi c : ascii) : bool :=
  (byte_val lo <=? byte_val c) && (byte_val c <=? byte_val hi).

Definition is_letter (c : ascii) : bool := between "a" "z" c || between "A" "Z" c.

Definition is_digit (c : ascii) : bool := between "0" "9" c.

Fixpoint containsCTLByte (s : string) : bool :=
  match s with
  | EmptyString => false
  | String c s' => (byte_val c <? 32) || (byte_val c =? 127) || containsCTLByte s'
  end.

Fixpoint getScheme_from (rawURL s : string) (i : nat) : (string * string) + string :=
  match s with
  | EmptyString => inl (EmptyString, rawURL)
  | String c s' =>
      if is_letter c then getScheme_from rawURL s' (S i)
      else if is_digit c || Ascii.eqb c "+" || Ascii.eqb c "-" || Ascii.eqb c "." then
        match i with
        | O => inl (EmptyString, rawURL)
        | S _ => getScheme_from rawURL s' (S i)
        end
      else if Ascii.eqb c ":" then
        match i with
        | O => inr "missing protocol scheme"
        | S _ => inl (str_take i rawURL, s')
        end
      else inl (EmptyString, rawURL)
  end.

(** [getScheme]: the scheme before the first colon, when the text before
    it has the shape of a scheme. *)
Definition getScheme (rawURL : string) : (string * string) + string :=
  getScheme_from rawURL rawURL 0.

(** [parseHost], without unescaping. *)
Definition parseHost (host : string) : string + string :=
  if strings_HasPrefix host "[" then
    let i := strings_LastIndex host "]" in
    if i <? 0 then inr "missing ']' in host"
    else if validOptionalPort (str_drop (Z.to_nat (i + 1)) host) then inl host
    else inr "invalid port after host"
  else
    let i := strings_LastIndex host ":" in
    if negb (i =? -1) && negb (validOptionalPort (str_drop (Z.to_nat i) host))
    then inr "invalid port after host"
    else inl host.

(** [parseAuthority]: the user information before the last at-sign, kept
    as written, and the host. *)
Definition parseAuthority (authority : string) : (option string * string) + string :=
  let i := strings_LastIndex authority "@" in
  if i <? 0 then
    match parseHost authority with
    | inl h => inl (None, h)
    | inr e => inr e
    end
  else
    match parseHost (str_drop (Z.to_nat (i + 1)) authority) with
    | inl h => inl (Some (str_take (Z.to_nat i) authority), h)
    | inr e => inr e
    end.

(** [parse(rawURL, false)] *)
Definition parse (rawURL : string) : URL + string :=
  if containsCTLByte rawURL then inr "net/url: invalid control character in URL"
  else if String.eqb rawURL "*" then
    inl (mkURL EmptyString EmptyString None EmptyString "*" EmptyString EmptyString)
  else
    match getScheme rawURL with
    | inr e => inr e
    | inl (scheme, rest) =>
        let scheme := map_bytes lower_byte scheme in
        let '(rest, query, _) := cut rest "?" in
        let authorityAndPath (rest : string) :=
          if (negb (String.eqb scheme "") || negb (strings_HasPrefix rest "///"))
             && strings_HasPrefix rest "//" then
            let '(authority, path, found) := cut (str_drop 2 rest) "/" in
            let path := if found then String "/" path else EmptyString in
            match parseAuthority authority with
            | inl (user, host) => inl (mkURL scheme EmptyString user host path query EmptyString)
            | inr e => inr e
            end
          else inl (mkURL scheme EmptyString None EmptyString rest query EmptyString) in
        if negb (strings_HasPrefix rest "/") then
          if negb (String.eqb scheme "") then
            inl (mkURL scheme rest None EmptyString EmptyString query EmptyString)
          else if 0 <=? strings_IndexByte (fst (fst (cut rest "/"))) ":" then
            inr "first path segment in URL cannot contain colon"
          else authorityAndPath rest
        else authorityAndPath rest
    end.

(** [url.Parse]: the fragment is cut off first. *)
Definition std_url_Parse (rawURL : string) : URL + error :=
  let '(u, frag, _) := cut rawURL "#" in
  match parse u with
  | inr e => inr (url_Error "parse" u e)
  | inl url =>
      inl (mkURL (Scheme url) (Opaque url) (User url) (Host url) (Path url)
                 (RawQuery url) frag)
  end.

(** *** net.ParseIP *)

Fixpoint dec_value (s : string) (acc : Z) : option Z :=
  match s with
  | EmptyString => Some acc
  | String c s' =>
      if is_digit c then dec_value s' (acc * 10 + (byte_val c - byte_val "0"))
      else None
  end.

(** A field of dotted IPv4 text: decimal, at most 255, no leading zero. *)
Definition octet (s : string) : option Z :=
  if (len s =? 0) || (3 <? len s) then None
  else if (1 <? len s) && strings_HasPrefix s "0" then None
  else match dec_value s 0 with
       | Some v => if v <=? 255 then Some v else None
       | None => None
       end.

Definition parseIPv4 (s : string) : option (list Z) :=
  match strings_Split s "." with
  | [a; b; c; d] =>
      match octet a, octet b, octet c, octet d with
      | Some a, Some b, Some c, Some d => Some [a; b; c; d]
      | _, _, _, _ => None
      end
  | _ => None
  end.

Definition hex_digit (c : ascii) : option Z :=
  if is_digit c then Some (byte_val c - byte_val "0")
  else if between "a" "f" c then Some (byte_val c - byte_val "a" + 10)
  else if between "A" "F" c then Some (byte_val c - byte_val "A" + 10)
  else None.

Fixpoint hex_value (s : string) (acc : Z) : option Z :=
  match s with
  | EmptyString => Some acc
  | String c s' =>
      match hex_digit c with
      | Some d => hex_value s' (acc * 16 + d)
      | None => None
      end
  end.

(** A field of IPv6 text: one to four hexadecimal digits, as two bytes. *)
Definition group (s : string) : option (list Z) :=
  if (len s =? 0) || (4 <? len s) then None
  else match hex_value s 0 with
       | Some v => Some [v / 256; v mod 256]
       | None => None
       end.

(** The bytes of a run of fields; only the last field of the address
    ([tail = true]) may be dotted IPv4 text. *)
Fixpoint groups (tail : bool) (ts : list string) : option (list Z) :=
  match ts with
  | [] => Some []
  | t :: ts' =>
      let here := match ts' with
                  | [] => if tail && (0 <=? strings_IndexByte t ".") then parseIPv4 t
                          else group t
                  | _ :: _ => group t
                  end in
      match here, groups tail ts' with
      | Some a, Some b => Some (a ++ b)%list
      | _, _ => None
      end
  end.

(** The fields before the first empty field, and those after it. *)
Fixpoint split_ellipsis (ts : list string) : list string * option (list string) :=
  match ts with
  | [] => ([], None)
  | t :: ts' =>
      if String.eqb t "" then ([], Some ts')
      else let '(a, b) := split_ellipsis ts' in (t :: a, b)
  end.

(** A double colon at an end of the text is two empty fields there: one of
    them is dropped; a single colon at an end is refused. *)
Definition drop_edge (ts : list string) : option (list string) :=
  match ts with
  | t :: ts' =>
      if String.eqb t "" then
        match ts' with
        | t' :: _ => if String.eqb t' "" then Some ts' else None
        | [] => None
        end
      else Some ts
  | [] => Some ts
  end.

Definition parseIPv6 (s : string) : option (list Z) :=
  match drop_edge (strings_Split s ":") with
  | None => None
  | Some ts =>
      match drop_edge (rev ts) with
      | None => None
      | Some rts =>
          match split_ellipsis (rev rts) with
          | (ts, None) =>
              match groups true ts with
              | Some bs => if Nat.eqb (List.length bs) 16 then Some bs else None
              | None => None
              end
          | (before, Some after) =>
              match groups false before, groups true after with
              | Some a, Some b =>
                  if Nat.leb (List.length a + List.length b) 14
                  then Some (a ++ repeat 0 (16 - List.length a - List.length b) ++ b)%list
                  else None
              | _, _ => None
              end
          end
      end
  end.

Definition v4InV6Prefix : list Z := [0;0;0;0;0;0;0;0;0;0;255;255].

Fixpoint parseIP_scan (whole s : string) : option IP :=
  match s with
  | EmptyString => None
  | String c s' =>
      if Ascii.eqb c "." then
        match parseIPv4 whole with
        | Some b => Some (v4InV6Prefix ++ b)%list
        | None => None
        end
      else if Ascii.eqb c ":" then parseIPv6 whole
      else if Ascii.eqb c "%" then None
      else parseIP_scan whole s'
  end.

(** [net.ParseIP]: the first dot or colon decides between IPv4 and IPv6
    text; the result has 16 bytes. *)
Definition std_net_ParseIP (s : string) : option IP := parseIP_scan s s.

(** *** Unicode tables *)

Definition bytes (l : list Z) : string :=
  string_of_list_ascii (map (fun v => ascii_of_N (Z.to_N v)) l).

(** KELVIN SIGN becomes [k], the capital letters of Latin-1 Supplement
    become their small letters, ASCII capitals likewise. *)
Fixpoint std_unicode_ToLower (s : string) : string :=
  match s with
  | EmptyString => EmptyString
  | String c1 s1 =>
      let one := String (lower_byte c1) (std_unicode_ToLower s1) in
      match s1 with
      | EmptyString => one
      | String c2 s2 =>
          if (byte_val c1 =? 195) && (128 <=? byte_val c2) && (byte_val c2 <=? 158)
             && negb (byte_val c2 =? 151)
          then String c1 (String (ascii_of_N (N_of_ascii c2 + 32)) (std_unicode_ToLower s2))
          else
            match s2 with
            | EmptyString => one
            | String c3 s3 =>
                if (byte_val c1 =? 226) && (byte_val c2 =? 132) && (byte_val c3 =? 170)
                then String "k" (std_unicode_ToLower s3)
                else one
            end
      end
  end.

(** White space: [asciiSpace], NEXT LINE and NO-BREAK SPACE. *)
Definition wide_space (c1 c2 : ascii) : bool :=
  (byte_val c1 =? 194) && ((byte_val c2 =? 133) || (byte_val c2 =? 160)).

Fixpoint trim_left (s : string) : string :=
  match s with
  | EmptyString => EmptyString
  | String c1 s1 =>
      if asciiSpace c1 then trim_left s1
      else match s1 with
           | String c2 s2 => if wide_space c1 c2 then trim_left s2 else s
           | EmptyString => s
           end
  end.

Fixpoint all_space (s : string) : bool :=
  match s with
  | EmptyString => true
  | String c1 s1 =>
      if asciiSpace c1 then all_space s1
      else match s1 with
           | String c2 s2 => wide_space c1 c2 && all_space s2
           | EmptyString => false
           end
  end.

Fixpoint trim_right (s : string) : string :=
  match s with
  | EmptyString => EmptyString
  | String c s' => if all_space s then EmptyString else String c (trim_right s')
  end.

Definition std_unicode_TrimSpace (s : string) : string := trim_right (trim_left s).

(** *** idna.Lookup.ToASCII: recorded conversions *)

(** "bücher.de" in UTF-8. *)
Definition buecher_de : string := "b" ++ bytes [195; 188] ++ "cher.de".

(** "Kelvin.com" in UTF-8, its first letter being KELVIN SIGN (U+212A),
    which the IDNA mapping table maps to [k]. *)
Definition Kelvin_com : string := bytes [226; 132; 170] ++ "elvin.com".

Definition idna_table : list (string * string) :=
  [(buecher_de, "xn--bcher-kva.de"); (Kelvin_com, "kelvin.com")].

Fixpoint idna_lookup (t : list (string * string)) (s : string) : string + error :=
  match t with
  | [] => inr (idna_Error "idna: no recorded conversion")
  | (k, v) :: t' => if String.eqb k s then inl v else idna_lookup t' s
  end.

Definition std_idna_Lookup_ToASCII (s : string) : string + error :=
  idna_lookup idna_table s.

End Std.

#[local] Instance std : GoLibrary := {|
  url_Parse := Std.std_url_Parse;
  idna_Lookup_ToASCII := Std.std_idna_Lookup_ToASCII;
  net_ParseIP := Std.std_net_ParseIP;
  unicode_ToLower := Std.std_unicode_ToLower;
  unicode_TrimSpace := Std.std_unicode_TrimSpace
|}.

(** The URL that [url.Parse] builds for the text [scheme://host/]. *)
Definition request (scheme host : string) : URL :=
  mkURL scheme EmptyString None host "/" EmptyString EmptyString.

(** ** The matching rules as the specification words them *)

(** An entry without leading dot: the address is the entry, or ends with it
    right after a dot. *)
Definition matchesDomain (address pattern : string) : Prop :=
  address = pattern \/ exists pre, address = pre ++ "." ++ pattern.

(** An entry with a leading dot: the address ends with the entry, or is the
    entry without its leading dot. *)
Definition matchesSubdomain (address pattern : string) : Prop :=
  (exists pre, address = pre ++ pattern) \/ String "." address = pattern.

(** The loopback rule: the host is the literal [localhost], or parses as an
    IP address in 127.0.0.0/8 or as ::1. *)
Definition loopbackHost {lib : GoLibrary} (host : string) : Prop :=
  host = "localhost" \/
  exists ip, net_ParseIP host = Some ip /\
             ((exists b c d, IP_To4 ip = Some [127; b; c; d]) \/ ip = IPv6loopback).

(** The test the code makes for the same rule. *)
Definition loopbackTest {lib : GoLibrary} (host : string) : bool :=
  String.eqb host "localhost" ||
  match net_ParseIP host with
  | Some ip => IP_IsLoopback ip
  | None => false
  end.

(** The loop body, once the entry is normalised to [p]. *)
Definition entryRule (addr p : string) : bool :=
  String.eqb addr p ||
  match p with
  | EmptyString => false
  | String c q =>
      if Ascii.eqb c "." then strings_HasSuffix addr p || String.eqb addr q
      else strings_HasSuffix addr p &&
           match index_at addr (len addr - len p - 1) with
           | Ret x => Ascii.eqb x "."
           | Panic => false
           end
  end.

(** ** package httpproxy: the configuration loader and the parts of the
       canonical address *)

(** [getEnvAny]: the value of the first of [names] whose value in the
    environment is not empty; [getenv] is [os.Getenv], which gives the empty
    string for a variable that is not set. *)
Fixpoint getEnvAny (getenv : string -> string) (names : list string) : string :=
  match names with
  | [] => EmptyString
  | n :: names' =>
      let val := getenv n in
      if negb (String.eqb val "") then val else getEnvAny getenv names'
  end.

(** [FromEnvironment] *)
Definition FromEnvironment (getenv : string -> string) : Config :=
  {| HTTPProxy := getEnvAny getenv ["HTTP_PROXY"; "http_proxy"];
     HTTPSProxy := getEnvAny getenv ["HTTPS_PROXY"; "https_proxy"];
     NoProxy := getEnvAny getenv ["NO_PROXY"; "no_proxy"] |}.

(** The local variables [addr] and [port] of [canonicalAddr] when they are
    joined. *)
Definition canonicalHost {lib : GoLibrary} (url : URL) : string :=
  match idnaASCII (URL_Hostname url) with
  | inl v => v
  | inr _ => URL_Hostname url
  end.

Definition canonicalPort (url : URL) : string :=
  if String.eqb (URL_Port url) "" then map_index portMap (Scheme url) else URL_Port url.

(** [strings.IndexByte(s, c) < 0]: the byte does not occur. *)
Definition lacks (s : string) (c : ascii) : Prop := strings_IndexByte s c = -1.

(** The host as [net.JoinHostPort] writes it before the colon. *)
Definition bracketed (host : string) : string :=
  if 0 <=? strings_IndexByte host ":" then "[" ++ host ++ "]" else host.

(** * Byte strings: lengths, slices, suffixes *)

Lemma len_nonneg (s : string) : 0 <= len s.
Proof. unfold len. lia. Qed.

Lemma len_String (c : ascii) (s : string) : len (String c s) = len s + 1.
Proof. unfold len. simpl String.length. lia. Qed.

Lemma length_app (a b : string) :
  String.length (a ++ b) = (String.length a + String.length b)%nat.
Proof. induction a as [|c a IH]; simpl; [reflexivity | now rewrite IH]. Qed.

Lemma len_app (a b : string) : len (a ++ b) = len a + len b.
Proof. unfold len. rewrite length_app. lia. Qed.

Lemma len_zero (s : string) : len s = 0 <-> s = EmptyString.
Proof.
  split.
  - destruct s; [reflexivity | rewrite len_String; pose proof (len_nonneg s); lia].
  - intros ->. reflexivity.
Qed.

Lemma app_assoc (a b c : string) : (a ++ b) ++ c = a ++ b ++ c.
Proof. induction a as [|x a IH]; simpl; [reflexivity | now rewrite IH]. Qed.

Lemma app_empty_r (a : string) : a ++ "" = a.
Proof. induction a as [|x a IH]; simpl; [reflexivity | now rewrite IH]. Qed.

Lemma app_not_empty (a b : string) (c : ascii) : a ++ String c b <> EmptyString.
Proof. destruct a; discriminate. Qed.

Lemma take_drop (n : nat) (s : string) : str_take n s ++ str_drop n s = s.
Proof.
  revert s. induction n as [|n IH]; intros s; [reflexivity|].
  destruct s as [|c s]; [reflexivity|]. simpl. now rewrite IH.
Qed.

Lemma drop_app (a b : string) : str_drop (String.length a) (a ++ b) = b.
Proof. induction a as [|c a IH]; simpl; [now destruct b | exact IH]. Qed.

Lemma last_byte (s : string) :
  s <> EmptyString -> exists init c, s = init ++ String c EmptyString.
Proof.
  induction s as [|c s IH]; intros Hs; [contradiction|].
  destruct s as [|c' s].
  - exists EmptyString, c. reflexivity.
  - destruct IH as (init & x & E); [discriminate|].
    exists (String c init), x. simpl. now rewrite <- E.
Qed.

Lemma get_app_len (a b : string) (c : ascii) :
  String.get (String.length a) (a ++ String c b) = Some c.
Proof. induction a as [|x a IH]; simpl; [reflexivity | exact IH]. Qed.

Lemma index_at_app (a b : string) (c : ascii) :
  index_at (a ++ String c b) (len a) = Ret c.
Proof.
  unfold index_at. rewrite len_app, len_String.
  pose proof (len_nonneg a). pose proof (len_nonneg b).
  replace ((0 <=? len a) && (len a <? len a + (len b + 1))) with true
    by (symmetry; apply andb_true_iff; split; [apply Z.leb_le | apply Z.ltb_lt]; lia).
  unfold len. rewrite Nat2Z.id, get_app_len. reflexivity.
Qed.

Lemma HasSuffix_iff (s suffix : string) :
  strings_HasSuffix s suffix = true <-> exists pre, s = pre ++ suffix.
Proof.
  unfold strings_HasSuffix. rewrite andb_true_iff, Z.leb_le, String.eqb_eq. split.
  - intros [_ E]. exists (str_take (String.length s - String.length suffix) s).
    pose proof (take_drop (String.length s - String.length suffix) s) as T.
    rewrite E in T. now symmetry.
  - intros [pre ->]. split; [rewrite len_app; pose proof (len_nonneg pre); lia|].
    rewrite length_app.
    replace (String.length pre + String.length suffix - String.length suffix)%nat
      with (String.length pre) by lia.
    apply drop_app.
Qed.

Lemma last_index_from_bounds (c : ascii) (s : string) (i acc : Z) :
  -1 <= acc < i -> -1 <= last_index_from c s i acc < i + len s.
Proof.
  revert i acc. induction s as [|x s IH]; intros i acc H; simpl.
  - change (len "") with 0. lia.
  - rewrite len_String. pose proof (len_nonneg s).
    destruct (Ascii.eqb x c).
    + specialize (IH (i + 1) i). lia.
    + specialize (IH (i + 1) acc). lia.
Qed.

Lemma LastIndex_bounds (s : string) (c : ascii) :
  -1 <= strings_LastIndex s c < len s.
Proof.
  unfold strings_LastIndex.
  pose proof (last_index_from_bounds c s 0 (-1)). lia.
Qed.

Lemma before_suffix (a p : string) :
  strings_HasSuffix a p = true -> a <> p ->
  exists pre c, a = pre ++ String c p /\ index_at a (len a - len p - 1) = Ret c.
Proof.
  intros Hs Hne. apply HasSuffix_iff in Hs as [pre0 ->].
  destruct (last_byte pre0) as (init & c & ->).
  { intros ->. now apply Hne. }
  exists init, c. rewrite app_assoc. simpl. split; [reflexivity|].
  rewrite len_app, len_String.
  replace (len init + (len p + 1) - len p - 1) with (len init) by lia.
  apply index_at_app.
Qed.

(** * The exclusion matcher never panics *)

Section Matcher.

Context {lib : GoLibrary}.

Lemma stripPort_prefix (x : string) :
  exists p rest, stripPort x = Ret p /\ x = p ++ rest.
Proof.
  unfold stripPort, hasPort.
  destruct (strings_LastIndex x ":" >? strings_LastIndex x "]") eqn:E.
  - pose proof (LastIndex_bounds x ":"). pose proof (LastIndex_bounds x "]").
    apply Z.gtb_lt in E. unfold slice_to.
    replace ((0 <=? strings_LastIndex x ":") && (strings_LastIndex x ":" <=? len x))
      with true
      by (symmetry; apply andb_true_iff; split; apply Z.leb_le; lia).
    eexists _, _. split; [reflexivity|]. symmetry. apply take_drop.
  - exists x, EmptyString. split; [reflexivity|]. now rewrite app_empty_r.
Qed.

Lemma hostOnly_total (s : string) : exists p, hostOnly s = Ret p.
Proof.
  unfold hostOnly.
  destruct (stripPort_prefix (strings_ToLower (strings_TrimSpace s))) as (p & _ & E & _).
  now exists p.
Qed.

Lemma hostOnly_empty (s : string) :
  strings_ToLower (strings_TrimSpace s) = EmptyString -> hostOnly s = Ret EmptyString.
Proof. unfold hostOnly. intros ->. reflexivity. Qed.

Lemma noProxyEntry_blank (addr tok : string) :
  strings_ToLower (strings_TrimSpace tok) = EmptyString ->
  noProxyEntry addr tok = Ret Continue.
Proof. unfold noProxyEntry. intros ->. reflexivity. Qed.

Lemma noProxyEntry_rule (addr tok p : string) :
  strings_ToLower (strings_TrimSpace tok) <> EmptyString ->
  hostOnly tok = Ret p ->
  noProxyEntry addr tok = Ret (if entryRule addr p then Return false else Continue).
Proof.
  unfold noProxyEntry, hostOnly, entryRule. intros Hne ->.
  destruct (len (strings_ToLower (strings_TrimSpace tok)) =? 0) eqn:E0.
  { apply Z.eqb_eq, len_zero in E0. contradiction. }
  cbn [bind]. destruct (String.eqb addr p) eqn:Eap; [reflexivity|].
  destruct p as [|c q]; [reflexivity|].
  rewrite len_String. pose proof (len_nonneg q).
  replace (len q + 1 =? 0) with false by (symmetry; apply Z.eqb_neq; lia).
  cbn [orb]. unfold and_then, or_else, index_at at 1 2, slice_from.
  rewrite len_String.
  replace ((0 <=? 0) && (0 <? len q + 1)) with true
    by (symmetry; apply andb_true_iff; split; [reflexivity | apply Z.ltb_lt; lia]).
  replace ((0 <=? 1) && (1 <=? len q + 1)) with true
    by (symmetry; apply andb_true_iff; split; [reflexivity | apply Z.leb_le; lia]).
  change (Z.to_nat 0) with 0%nat. change (Z.to_nat 1) with 1%nat.
  cbn [String.get bind str_drop].
  destruct (Ascii.eqb c ".") eqn:Ec; cbn [negb bind].
  - destruct (strings_HasSuffix addr (String c q)); cbn [bind orb]; [reflexivity|].
    destruct (String.eqb addr q); reflexivity.
  - destruct (strings_HasSuffix addr (String c q)) eqn:Es; cbn [bind andb]; [|reflexivity].
    apply String.eqb_neq in Eap.
    destruct (before_suffix _ _ Es Eap) as (pre & x & _ & Ei).
    rewrite len_String in Ei. rewrite Ei. cbn [bind].
    destruct (Ascii.eqb x "."); reflexivity.
Qed.

(** An iteration continues or returns false; it never panics. *)
Lemma noProxyEntry_total (addr tok : string) :
  noProxyEntry addr tok = Ret Continue \/ noProxyEntry addr tok = Ret (Return false).
Proof.
  destruct (string_dec (strings_ToLower (strings_TrimSpace tok)) EmptyString) as [E|E].
  - left. now apply noProxyEntry_blank.
  - destruct (hostOnly_total tok) as [p Hp].
    rewrite (noProxyEntry_rule addr tok p E Hp).
    destruct (entryRule addr p); auto.
Qed.

Lemma noProxyLoop_continue (addr : string) (ps : list string) :
  (forall p, In p ps -> noProxyEntry addr p = Ret Continue) ->
  noProxyLoop addr ps = Ret true.
Proof.
  induction ps as [|p ps IH]; intros H; [reflexivity|].
  cbn [noProxyLoop]. rewrite (H p (or_introl eq_refl)). cbn [bind].
  apply IH. intros q Hq. apply H. now right.
Qed.

Lemma noProxyLoop_return (addr : string) (ps : list string) (p : string) :
  In p ps -> noProxyEntry addr p = Ret (Return false) ->
  noProxyLoop addr ps = Ret false.
Proof.
  induction ps as [|q ps IH]; intros Hin Hp; [contradiction|].
  cbn [noProxyLoop].
  destruct (noProxyEntry_total addr q) as [E|E]; rewrite E; cbn [bind]; [|reflexivity].
  destruct Hin as [->|Hin]; [congruence | now apply IH].
Qed.

Lemma noProxyLoop_total (addr : string) (ps : list string) :
  exists b, noProxyLoop addr ps = Ret b.
Proof.
  induction ps as [|q ps IH]; [now exists true|].
  cbn [noProxyLoop].
  destruct (noProxyEntry_total addr q) as [E|E]; rewrite E; cbn [bind];
    [exact IH | now exists false].
Qed.

Lemma split_ok_nonempty (addr : string) (hp : string * string) :
  net_SplitHostPort addr = inl hp -> (len addr =? 0) = false.
Proof.
  destruct addr; [discriminate|]. intros _.
  rewrite len_String. pose proof (len_nonneg addr). apply Z.eqb_neq. lia.
Qed.

Lemma To4_length (ip ip4 : IP) : IP_To4 ip = Some ip4 -> List.length ip4 = 4%nat.
Proof.
  unfold IP_To4. destruct (Nat.eqb (List.length ip) 4) eqn:E4.
  - intros [= <-]. now apply Nat.eqb_eq.
  - destruct (Nat.eqb (List.length ip) 16) eqn:E16; [|discriminate].
    apply Nat.eqb_eq in E16. cbn [andb].
    destruct (isZeros (firstn 10 ip)); [|discriminate]. cbn [andb].
    destruct (nth 10 ip 0 =? 255); [|discriminate]. cbn [andb].
    destruct (nth 11 ip 0 =? 255); [|discriminate].
    intros E. replace ip4 with (skipn 12 ip) by congruence.
    rewrite length_skipn. lia.
Qed.

Lemma loopbackTest_iff (host : string) :
  loopbackTest host = true <-> loopbackHost host.
Proof.
  unfold loopbackTest, loopbackHost. rewrite orb_true_iff, String.eqb_eq.
  split; (intros [H|H]; [now left | right]).
  - destruct (net_ParseIP host) as [ip|]; [|discriminate].
    exists ip. split; [reflexivity|].
    unfold IP_IsLoopback in H. destruct (IP_To4 ip) as [ip4|] eqn:E4.
    + left. pose proof (To4_length _ _ E4) as L4.
      destruct ip4 as [|b0 [|b [|c [|d [|? ?]]]]]; try discriminate.
      apply Z.eqb_eq in H. subst b0. now exists b, c, d.
    + right. destruct (list_eq_dec Z.eq_dec ip IPv6loopback); [assumption | discriminate].
  - destruct H as (ip & -> & [(b & c & d & E4)| ->]).
    + unfold IP_IsLoopback. rewrite E4. reflexivity.
    + reflexivity.
Qed.

Lemma useProxy_loop (cfg : Config) (addr host port a : string) :
  net_SplitHostPort addr = inl (host, port) ->
  ~ loopbackHost host ->
  NoProxy cfg <> "*" ->
  hostOnly addr = Ret a ->
  useProxy cfg addr = noProxyLoop a (strings_Split (NoProxy cfg) ",").
Proof.
  intros Hs Hl Hn Ha. unfold useProxy.
  rewrite (split_ok_nonempty _ _ Hs), Hs.
  rewrite <- loopbackTest_iff in Hl. apply not_true_is_false in Hl.
  unfold loopbackTest in Hl. apply orb_false_iff in Hl as [-> ->].
  apply String.eqb_neq in Hn. rewrite Hn, Ha. reflexivity.
Qed.

(** [useProxy] returns a boolean on every address and configuration. *)
Lemma useProxy_total (cfg : Config) (addr : string) :
  exists b, useProxy cfg addr = Ret b.
Proof.
  unfold useProxy.
  destruct (len addr =? 0); [now exists true|].
  destruct (net_SplitHostPort addr) as [[host port]|]; [|now exists false].
  destruct (String.eqb host "localhost"); [now exists false|].
  destruct (match net_ParseIP host with Some ip => IP_IsLoopback ip | None => false end);
    [now exists false|].
  destruct (String.eqb (NoProxy cfg) "*"); [now exists false|].
  destruct (hostOnly_total addr) as [a ->]. cbn [bind].
  apply noProxyLoop_total.
Qed.

End Matcher.

(** * The entry rules of the code and of the specification agree *)

Lemma first_byte_not_dot (p : string) :
  p <> EmptyString -> strings_HasPrefix p "." = false ->
  exists c q, p = String c q /\ Ascii.eqb c "." = false.
Proof.
  destruct p as [|c q]; [contradiction|]. intros _ H.
  exists c, q. split; [reflexivity|].
  unfold strings_HasPrefix in H. cbn [String.prefix] in H.
  destruct (Ascii.eqb_spec c "."); [|reflexivity].
  subst c. destruct (ascii_dec "." "."); [now destruct q | contradiction].
Qed.

Lemma entryRule_domain (a p : string) :
  p <> EmptyString -> strings_HasPrefix p "." = false ->
  entryRule a p = true <-> matchesDomain a p.
Proof.
  intros Hp Hd. destruct (first_byte_not_dot p Hp Hd) as (c & q & -> & Ec).
  unfold entryRule, matchesDomain. rewrite Ec, orb_true_iff, String.eqb_eq. split.
  - intros [E|E]; [now left|]. right.
    apply andb_true_iff in E as [Hs Hi].
    destruct (string_dec a (String c q)) as [->|Hne].
    + exists EmptyString. exfalso.
      unfold index_at in Hi.
      replace (len (String c q) - len (String c q) - 1) with (-1) in Hi by lia.
      discriminate.
    + destruct (before_suffix _ _ Hs Hne) as (pre & x & -> & Ei).
      rewrite Ei in Hi. apply Ascii.eqb_eq in Hi. subst x. now exists pre.
  - intros [E|[pre E]]; [now left|]. right. subst a.
    apply andb_true_iff. split.
    + apply HasSuffix_iff. exists (pre ++ "."). now rewrite app_assoc.
    + cbn [append]. rewrite len_app, !len_String.
      replace (len pre + (len q + 1 + 1) - (len q + 1) - 1) with (len pre) by lia.
      rewrite index_at_app. reflexivity.
Qed.

Lemma entryRule_subdomain (a q : string) :
  entryRule a (String "." q) = true <-> matchesSubdomain a (String "." q).
Proof.
  unfold entryRule, matchesSubdomain.
  change (Ascii.eqb "." ".") with true. cbv iota.
  rewrite !orb_true_iff, !String.eqb_eq, HasSuffix_iff. split.
  - intros [E|[E|E]].
    + left. exists EmptyString. exact E.
    + now left.
    + right. now subst.
  - intros [E|E]; [now (right; left)|]. right; right. now injection E.
Qed.

Section Rules.

Context {lib : GoLibrary}.

Lemma not_loopback_by_test (host : string) :
  loopbackTest host = false -> ~ loopbackHost host.
Proof. intros E H. apply loopbackTest_iff in H. congruence. Qed.

Lemma entry_not_blank (tok p : string) :
  hostOnly tok = Ret p -> p <> EmptyString ->
  strings_ToLower (strings_TrimSpace tok) <> EmptyString.
Proof.
  intros Hp Hne E. rewrite (hostOnly_empty tok E) in Hp. congruence.
Qed.

Lemma noProxyEntry_return_iff (a tok p : string) :
  hostOnly tok = Ret p -> p <> EmptyString ->
  (noProxyEntry a tok = Ret (Return false) <-> entryRule a p = true) /\
  (noProxyEntry a tok = Ret Continue <-> entryRule a p = false).
Proof.
  intros Hp Hne.
  rewrite (noProxyEntry_rule a tok p (entry_not_blank tok p Hp Hne) Hp).
  destruct (entryRule a p); split; split; intros; congruence.
Qed.

(** C3: an entry of NoProxy that, lower-cased, trimmed and without its port,
    is non-empty and has no leading dot makes [useProxy] skip the proxy
    exactly when the address (lower-cased, trimmed, without port) is the entry
    or ends with it right after a dot. *)
Theorem domain_entry_rule (cfg : Config) (addr host port a tok p : string) :
  net_SplitHostPort addr = inl (host, port) ->
  ~ loopbackHost host ->
  NoProxy cfg <> "*" ->
  hostOnly addr = Ret a ->
  In tok (strings_Split (NoProxy cfg) ",") ->
  hostOnly tok = Ret p ->
  p <> EmptyString ->
  strings_HasPrefix p "." = false ->
  (noProxyEntry a tok = Ret (Return false) <-> matchesDomain a p) /\
  (noProxyEntry a tok = Ret Continue <-> ~ matchesDomain a p) /\
  (matchesDomain a p -> useProxy cfg addr = Ret false) /\
  (strings_Split (NoProxy cfg) "," = [tok] -> ~ matchesDomain a p ->
   useProxy cfg addr = Ret true).
Proof.
  intros Hs Hl Hn Ha Hin Hp Hne Hd.
  destruct (noProxyEntry_return_iff a tok p Hp Hne) as [R C].
  pose proof (entryRule_domain a p Hne Hd) as D.
  assert (C' : noProxyEntry a tok = Ret Continue <-> ~ matchesDomain a p).
  { rewrite C, <- D. clear. destruct (entryRule _ _); split; intros H; congruence. }
  rewrite (useProxy_loop cfg addr host port a Hs Hl Hn Ha).
  repeat split.
  - intros H. apply D, R, H.
  - intros H. apply R, D, H.
  - apply C'.
  - apply C'.
  - intros H. apply (noProxyLoop_return a _ tok Hin). apply R, D, H.
  - intros E H. rewrite E. apply noProxyLoop_continue.
    intros q [<-|[]]. now apply C'.
Qed.

(** C4: an entry of NoProxy that, lower-cased, trimmed and without its port,
    starts with a dot makes [useProxy] skip the proxy exactly when the
    address ends with the entry or is the entry without its leading dot. *)
Theorem subdomain_entry_rule (cfg : Config) (addr host port a tok q : string) :
  net_SplitHostPort addr = inl (host, port) ->
  ~ loopbackHost host ->
  NoProxy cfg <> "*" ->
  hostOnly addr = Ret a ->
  In tok (strings_Split (NoProxy cfg) ",") ->
  hostOnly tok = Ret (String "." q) ->
  (noProxyEntry a tok = Ret (Return false) <-> matchesSubdomain a (String "." q)) /\
  (noProxyEntry a tok = Ret Continue <-> ~ matchesSubdomain a (String "." q)) /\
  (matchesSubdomain a (String "." q) -> useProxy cfg addr = Ret false) /\
  (strings_Split (NoProxy cfg) "," = [tok] -> ~ matchesSubdomain a (String "." q) ->
   useProxy cfg addr = Ret true).
Proof.
  intros Hs Hl Hn Ha Hin Hp.
  assert (Hne : String "." q <> EmptyString) by discriminate.
  destruct (noProxyEntry_return_iff a tok _ Hp Hne) as [R C].
  pose proof (entryRule_subdomain a q) as D.
  assert (C' : noProxyEntry a tok = Ret Continue <-> ~ matchesSubdomain a (String "." q)).
  { rewrite C, <- D. clear. destruct (entryRule _ _); split; intros H; congruence. }
  rewrite (useProxy_loop cfg addr host port a Hs Hl Hn Ha).
  repeat split.
  - intros H. apply D, R, H.
  - intros H. apply R, D, H.
  - apply C'.
  - apply C'.
  - intros H. apply (noProxyLoop_return a _ tok Hin). apply R, D, H.
  - intros E H. rewrite E. apply noProxyLoop_continue.
    intros p [<-|[]]. now apply C'.
Qed.

End Rules.

(** * Decisions of [useProxy] that do not depend on the entries *)

Section Decisions.

Context {lib : GoLibrary}.

Lemma useProxy_loopback (cfg : Config) (addr host port : string) :
  net_SplitHostPort addr = inl (host, port) ->
  loopbackTest host = true ->
  useProxy cfg addr = Ret false.
Proof.
  intros Hs Hl. unfold useProxy.
  rewrite (split_ok_nonempty _ _ Hs), Hs. unfold loopbackTest in Hl.
  destruct (String.eqb host "localhost"); [reflexivity|].
  cbn [orb] in Hl. now rewrite Hl.
Qed.

(** C2: an address whose host is the literal [localhost], or parses as a
    loopback IP address (127.0.0.0/8 or ::1), is never proxied, whatever
    NoProxy holds. *)
Theorem loopback_never_proxied (cfg : Config) (addr host port : string) :
  net_SplitHostPort addr = inl (host, port) ->
  loopbackHost host ->
  useProxy cfg addr = Ret false.
Proof.
  intros Hs Hl. apply (useProxy_loopback cfg addr host port Hs).
  now apply loopbackTest_iff.
Qed.

Lemma canonicalAddr_nonempty (req : URL) : canonicalAddr req <> EmptyString.
Proof.
  unfold canonicalAddr, net_JoinHostPort.
  destruct (0 <=? strings_IndexByte _ ":"); [discriminate | apply app_not_empty].
Qed.

(** C5: when NoProxy is exactly [*], [useProxy] skips the proxy for every
    non-empty address, and [ProxyForURL] returns no proxy and no error for
    every request. *)
Theorem star_disables_proxying (cfg : Config) :
  NoProxy cfg = "*" ->
  (forall addr, addr <> EmptyString -> useProxy cfg addr = Ret false) /\
  (forall req, ProxyForURL cfg req = Ret (None, None)).
Proof.
  intros Hn.
  assert (U : forall addr, addr <> EmptyString -> useProxy cfg addr = Ret false).
  { intros addr Ha. unfold useProxy.
    destruct (len addr =? 0) eqn:E0.
    { apply Z.eqb_eq, len_zero in E0. contradiction. }
    destruct (net_SplitHostPort addr) as [[host port]|]; [|reflexivity].
    destruct (String.eqb host "localhost"); [reflexivity|].
    destruct (match net_ParseIP host with Some ip => IP_IsLoopback ip | None => false end);
      [reflexivity|].
    rewrite Hn. reflexivity. }
  split; [exact U|].
  intros req. unfold ProxyForURL.
  destruct (String.eqb (candidateProxy cfg req) ""); [reflexivity|].
  rewrite (U _ (canonicalAddr_nonempty req)). reflexivity.
Qed.

(** C8, as amended: no entry makes [useProxy] panic or fail; an entry that is
    empty once trimmed is skipped; an entry that is empty once its port is
    stripped is skipped when the address, lower-cased, trimmed and without
    port, is non-empty; with NoProxy [:1] alone the proxy is used for every
    address that splits, is not a loopback host and is non-empty in that
    form. *)
Theorem malformed_entries_are_skipped :
  (forall cfg addr, exists b, useProxy cfg addr = Ret b) /\
  (forall a tok, strings_TrimSpace tok = EmptyString -> noProxyEntry a tok = Ret Continue) /\
  (forall a tok, hostOnly tok = Ret EmptyString -> a <> EmptyString ->
                 noProxyEntry a tok = Ret Continue) /\
  (forall cfg addr host port a,
      NoProxy cfg = ":1" ->
      net_SplitHostPort addr = inl (host, port) ->
      ~ loopbackHost host ->
      hostOnly addr = Ret a ->
      a <> EmptyString ->
      useProxy cfg addr = Ret true).
Proof.
  assert (S3 : forall a tok, hostOnly tok = Ret EmptyString -> a <> EmptyString ->
                             noProxyEntry a tok = Ret Continue).
  { intros a tok Hp Ha.
    destruct (string_dec (strings_ToLower (strings_TrimSpace tok)) EmptyString) as [E|E].
    - now apply noProxyEntry_blank.
    - rewrite (noProxyEntry_rule a tok _ E Hp). unfold entryRule.
      apply String.eqb_neq in Ha. rewrite Ha. reflexivity. }
  split; [exact useProxy_total|]. split; [|split; [exact S3|]].
  - intros a tok E. apply noProxyEntry_blank. rewrite E. reflexivity.
  - intros cfg addr host port a Hn Hs Hl Ha Hne.
    rewrite (useProxy_loop cfg addr host port a Hs Hl)
      by first [exact Ha | rewrite Hn; discriminate].
    rewrite Hn. apply noProxyLoop_continue. intros q [<-|[]].
    apply S3; [reflexivity | exact Hne].
Qed.

(** C9: the test against [localhost] is made on the host as given, before
    any lower-casing: with an empty NoProxy every address that splits and is
    not a loopback host is proxied, so [LOCALHOST:80] is, while
    [localhost:80] never is; the entries are compared on the lower-cased
    address, so the entry [localhost] does exclude [LOCALHOST:80]. *)
Theorem localhost_test_is_case_sensitive :
  ~ loopbackHost "LOCALHOST" ->
  (forall cfg addr host port,
      NoProxy cfg = EmptyString ->
      net_SplitHostPort addr = inl (host, port) ->
      ~ loopbackHost host ->
      useProxy cfg addr = Ret true) /\
  (forall hp hps, useProxy (mkConfig hp hps "") "LOCALHOST:80" = Ret true) /\
  (forall cfg, useProxy cfg "localhost:80" = Ret false) /\
  (forall hp hps, useProxy (mkConfig hp hps "localhost") "LOCALHOST:80" = Ret false).
Proof.
  intros HL.
  assert (G : forall cfg addr host port,
             NoProxy cfg = EmptyString ->
             net_SplitHostPort addr = inl (host, port) ->
             ~ loopbackHost host ->
             useProxy cfg addr = Ret true).
  { intros cfg addr host port Hn Hs Hl.
    destruct (hostOnly_total addr) as [a Ha].
    rewrite (useProxy_loop cfg addr host port a Hs Hl)
      by first [exact Ha | rewrite Hn; discriminate].
    rewrite Hn. apply noProxyLoop_continue. intros q [<-|[]].
    now apply noProxyEntry_blank. }
  split; [exact G|]. split; [|split].
  - intros hp hps. now apply (G _ "LOCALHOST:80" "LOCALHOST" "80").
  - intros cfg. apply (useProxy_loopback cfg "localhost:80" "localhost" "80"); reflexivity.
  - intros hp hps.
    rewrite (useProxy_loop _ "LOCALHOST:80" "LOCALHOST" "80" "localhost");
      [reflexivity | reflexivity | exact HL | discriminate | reflexivity].
Qed.

End Decisions.

(** * The proxy resolver *)

Section Resolver.

Context {lib : GoLibrary}.

Lemma ProxyForURL_parse (cfg : Config) (req : URL) :
  candidateProxy cfg req <> EmptyString ->
  useProxy cfg (canonicalAddr req) = Ret true ->
  ProxyForURL cfg req =
  let proxy := candidateProxy cfg req in
  match url_Parse proxy with
  | inl u =>
      if unknownScheme u then
        match url_Parse ("http://" ++ proxy) with
        | inl u' => Ret (Some u', None)
        | inr _ => Ret (Some u, None)
        end
      else Ret (Some u, None)
  | inr e =>
      match url_Parse ("http://" ++ proxy) with
      | inl u' => Ret (Some u', None)
      | inr _ => Ret (None, Some (invalid_proxy_address proxy e))
      end
  end.
Proof.
  intros Hc Hu. unfold ProxyForURL.
  apply String.eqb_neq in Hc. rewrite Hc, Hu. cbn [bind negb].
  destruct (url_Parse (candidateProxy cfg req)) as [u|e].
  - destruct (unknownScheme u); [|reflexivity].
    destruct (url_Parse ("http://" ++ candidateProxy cfg req)); reflexivity.
  - destruct (url_Parse ("http://" ++ candidateProxy cfg req)); reflexivity.
Qed.

Lemma ProxyForURL_skipped (cfg : Config) (req : URL) :
  useProxy cfg (canonicalAddr req) = Ret false ->
  ProxyForURL cfg req = Ret (None, None).
Proof.
  intros Hu. unfold ProxyForURL.
  destruct (String.eqb (candidateProxy cfg req) ""); [reflexivity|].
  rewrite Hu. reflexivity.
Qed.

(** C1, as amended: when the candidate parses with a scheme other than http,
    https and socks5 and the parse of the candidate prefixed with [http://]
    fails, no error is returned, and the URL returned is the one of the
    first parse, with its unrecognised scheme; it is nil only when
    [useProxy] excludes the request. *)
Theorem unknown_scheme_is_returned (cfg : Config) (req u : URL) (e : error) (b : bool) :
  candidateProxy cfg req <> EmptyString ->
  url_Parse (candidateProxy cfg req) = inl u ->
  unknownScheme u = true ->
  url_Parse ("http://" ++ candidateProxy cfg req) = inr e ->
  useProxy cfg (canonicalAddr req) = Ret b ->
  ProxyForURL cfg req = Ret (if b then Some u else None, None).
Proof.
  intros Hc Hp Hs Hr Hu. destruct b.
  - rewrite (ProxyForURL_parse cfg req Hc Hu). cbv zeta. now rewrite Hp, Hs, Hr.
  - now apply ProxyForURL_skipped.
Qed.


(** C7: once the request is to be proxied, a candidate that does not parse,
    or parses with a scheme other than http, https and socks5, is parsed
    again with [http://] in front; when that succeeds the result is that
    URL and no error; when both parses fail the result is no proxy and the
    error that holds the candidate and the first parse error. *)
Theorem repair_with_http_prefix (cfg : Config) (req : URL) :
  candidateProxy cfg req <> EmptyString ->
  useProxy cfg (canonicalAddr req) = Ret true ->
  (forall u, url_Parse (candidateProxy cfg req) = inl u -> unknownScheme u = true) ->
  (forall u', url_Parse ("http://" ++ candidateProxy cfg req) = inl u' ->
              ProxyForURL cfg req = Ret (Some u', None)) /\
  (forall e e', url_Parse (candidateProxy cfg req) = inr e ->
                url_Parse ("http://" ++ candidateProxy cfg req) = inr e' ->
                ProxyForURL cfg req =
                  Ret (None, Some (invalid_proxy_address (candidateProxy cfg req) e))).
Proof.
  intros Hc Hu Hb. rewrite (ProxyForURL_parse cfg req Hc Hu). cbv zeta. split.
  - intros u' Hr. rewrite Hr.
    destruct (url_Parse (candidateProxy cfg req)) as [u|e] eqn:Hp; [|reflexivity].
    now rewrite (Hb u eq_refl).
  - intros e e' Hp Hr. now rewrite Hp, Hr.
Qed.

End Resolver.

(** * ASCII strings stay ASCII *)

Lemma isASCII_app (a b : string) : isASCII (a ++ b) = isASCII a && isASCII b.
Proof.
  induction a as [|c a IH]; [reflexivity|]. cbn [append isASCII].
  destruct (byte_val c >=? utf8_RuneSelf); [reflexivity | exact IH].
Qed.

Lemma isASCII_String (c : ascii) (s : string) :
  isASCII (String c s) = true ->
  (byte_val c >=? utf8_RuneSelf) = false /\ isASCII s = true.
Proof.
  cbn [isASCII]. destruct (byte_val c >=? utf8_RuneSelf); [discriminate | now split].
Qed.

Lemma lower_byte_ascii (c : ascii) :
  (byte_val c >=? utf8_RuneSelf) = false ->
  (byte_val (lower_byte c) >=? utf8_RuneSelf) = false.
Proof.
  destruct c as [b0 b1 b2 b3 b4 b5 b6 b7].
  destruct b0, b1, b2, b3, b4, b5, b6, b7; vm_compute; congruence.
Qed.

Lemma isASCII_lower (s : string) :
  isASCII s = true -> isASCII (map_bytes lower_byte s) = true.
Proof.
  induction s as [|c s IH]; [reflexivity|]. intros H.
  apply isASCII_String in H as [Hc Hs]. cbn [map_bytes isASCII].
  rewrite (lower_byte_ascii c Hc). now apply IH.
Qed.

Lemma isASCII_trim_left (s : string) :
  isASCII s = true -> isASCII (trim_left_ascii s) = true.
Proof.
  induction s as [|c s IH]; [reflexivity|]. intros H. cbn [trim_left_ascii].
  destruct (asciiSpace c); [|exact H].
  apply isASCII_String in H as [_ Hs]. now apply IH.
Qed.

Lemma isASCII_trim_right (s : string) :
  isASCII s = true -> isASCII (trim_right_ascii s) = true.
Proof.
  induction s as [|c s IH]; [reflexivity|]. intros H.
  apply isASCII_String in H as [Hc Hs]. specialize (IH Hs). cbn [trim_right_ascii].
  destruct (trim_right_ascii s) as [|x t].
  - destruct (asciiSpace c); [reflexivity|]. cbn [isASCII]. now rewrite Hc.
  - cbn [isASCII] in *. now rewrite Hc.
Qed.

Lemma all_digits_ascii (s : string) : all_digits s = true -> isASCII s = true.
Proof.
  induction s as [|c s IH]; [reflexivity|]. cbn [all_digits isASCII]. intros H.
  apply andb_true_iff in H as [H Hs]. apply andb_true_iff in H as [_ H9].
  apply Z.leb_le in H9. change (byte_val "9") with 57 in H9.
  replace (byte_val c >=? utf8_RuneSelf) with false
    by (symmetry; unfold utf8_RuneSelf; rewrite Z.geb_leb; apply Z.leb_gt; lia).
  now apply IH.
Qed.

Lemma drop_S (n : nat) (s : string) : str_drop (S n) s = str_drop 1 (str_drop n s).
Proof.
  revert s. induction n as [|n IH]; intros s; [reflexivity|].
  destruct s as [|c s]; [reflexivity|].
  change (str_drop (S (S n)) (String c s)) with (str_drop (S n) s).
  change (str_drop (S n) (String c s)) with (str_drop n s). apply IH.
Qed.

Lemma URL_Port_ascii (u : URL) : isASCII (URL_Port u) = true.
Proof.
  unfold URL_Port, url_splitHostPort.
  pose proof (LastIndex_bounds (Host u) ":") as B.
  set (colon := strings_LastIndex (Host u) ":") in *.
  assert (P : isASCII (snd (if negb (colon =? -1) &&
                               validOptionalPort (str_drop (Z.to_nat colon) (Host u))
                            then (str_take (Z.to_nat colon) (Host u),
                                  str_drop (Z.to_nat (colon + 1)) (Host u))
                            else (Host u, EmptyString))) = true).
  { destruct (colon =? -1) eqn:E; [reflexivity|]. cbn [negb andb].
    destruct (validOptionalPort _) eqn:V; [|reflexivity]. cbn [snd].
    apply Z.eqb_neq in E.
    replace (Z.to_nat (colon + 1)) with (S (Z.to_nat colon)) by lia.
    rewrite drop_S. unfold validOptionalPort in V.
    destruct (str_drop (Z.to_nat colon) (Host u)) as [|c rest]; [reflexivity|].
    apply andb_true_iff in V as [_ V]. cbn [str_drop]. now apply all_digits_ascii. }
  destruct (if negb (colon =? -1) && validOptionalPort _ then _ else _) as [host port].
  cbn [snd] in P. destruct (strings_HasPrefix host "[" && strings_HasSuffix host "]"); exact P.
Qed.

Lemma portMap_ascii (k : string) : isASCII (map_index portMap k) = true.
Proof.
  unfold portMap. cbn [map_index].
  repeat match goal with |- context [String.eqb ?a k] => destruct (String.eqb a k) end;
    reflexivity.
Qed.

Lemma JoinHostPort_ascii (host port : string) :
  isASCII host = true -> isASCII port = true ->
  isASCII (net_JoinHostPort host port) = true.
Proof.
  intros Hh Hp. unfold net_JoinHostPort.
  destruct (0 <=? strings_IndexByte host ":"); rewrite !isASCII_app, Hh, Hp; reflexivity.
Qed.

Section International.

Context {lib : GoLibrary}.

Lemma canonicalAddr_ascii (req : URL) (v : string) :
  isASCII (URL_Hostname req) = false ->
  idna_Lookup_ToASCII (URL_Hostname req) = inl v ->
  isASCII v = true ->
  canonicalAddr req = net_JoinHostPort v
                        (if String.eqb (URL_Port req) ""
                         then map_index portMap (Scheme req) else URL_Port req) /\
  isASCII (canonicalAddr req) = true.
Proof.
  intros Hh Hi Hv. unfold canonicalAddr, idnaASCII. rewrite Hh, Hi.
  split; [reflexivity|]. apply JoinHostPort_ascii; [exact Hv|].
  destruct (String.eqb (URL_Port req) ""); [apply portMap_ascii | apply URL_Port_ascii].
Qed.

Lemma hostOnly_ascii (s a : string) :
  isASCII s = true -> hostOnly s = Ret a -> isASCII a = true.
Proof.
  intros Hs Ha. unfold hostOnly, strings_TrimSpace in Ha. rewrite Hs in Ha.
  unfold strings_ToLower in Ha.
  pose proof (isASCII_trim_right _ (isASCII_trim_left _ Hs)) as Ht.
  rewrite Ht in Ha. pose proof (isASCII_lower _ Ht) as Hl.
  destruct (stripPort_prefix (map_bytes lower_byte (trim_right_ascii (trim_left_ascii s))))
    as (p & rest & Ep & Ex).
  rewrite Ep in Ha. injection Ha as <-.
  rewrite Ex, isASCII_app in Hl. now apply andb_true_iff in Hl as [Hl _].
Qed.

Lemma entryRule_ascii_mismatch (a p : string) :
  isASCII a = true -> isASCII p = false -> entryRule a p = false.
Proof.
  intros Ha Hp. unfold entryRule.
  assert (Hs : strings_HasSuffix a p = false).
  { apply not_true_is_false. intros H. apply HasSuffix_iff in H as [pre ->].
    rewrite isASCII_app, Hp, andb_false_r in Ha. discriminate. }
  replace (String.eqb a p) with false
    by (symmetry; apply String.eqb_neq; intros ->; congruence).
  destruct p as [|c q]; [reflexivity|]. rewrite Hs. cbn [orb andb].
  destruct (Ascii.eqb_spec c "."); [|reflexivity].
  subst c. apply String.eqb_neq. intros ->.
  cbn [isASCII] in Hp. change (byte_val "." >=? utf8_RuneSelf) with false in Hp.
  cbv iota in Hp. congruence.
Qed.

(** C10, as amended: the request host is converted by IDNA, the entries are
    not; so when the host has a non-ASCII byte and converts to an ASCII
    name, an entry written as the unconverted name does not match, provided
    the entry still has a non-ASCII byte once lower-cased, trimmed and
    without port; alone in NoProxy, it leaves the request proxied unless the
    address does not split or is a loopback host. *)
Theorem unconverted_entry_does_not_match (cfg : Config) (req : URL) (v p : string) :
  isASCII (URL_Hostname req) = false ->
  idna_Lookup_ToASCII (URL_Hostname req) = inl v ->
  isASCII v = true ->
  hostOnly (URL_Hostname req) = Ret p ->
  isASCII p = false ->
  exists a,
    hostOnly (canonicalAddr req) = Ret a /\
    noProxyEntry a (URL_Hostname req) = Ret Continue /\
    (forall host port,
        strings_Split (NoProxy cfg) "," = [URL_Hostname req] ->
        net_SplitHostPort (canonicalAddr req) = inl (host, port) ->
        ~ loopbackHost host ->
        useProxy cfg (canonicalAddr req) = Ret true).
Proof.
  intros Hh Hi Hv Hp Hn.
  destruct (canonicalAddr_ascii req v Hh Hi Hv) as [_ Hc].
  destruct (hostOnly_total (canonicalAddr req)) as [a Ha].
  pose proof (hostOnly_ascii _ _ Hc Ha) as Haa.
  assert (Hpe : p <> EmptyString) by (intros ->; discriminate).
  assert (E : noProxyEntry a (URL_Hostname req) = Ret Continue).
  { apply (noProxyEntry_return_iff a _ p Hp Hpe). now apply entryRule_ascii_mismatch. }
  exists a. split; [exact Ha|]. split; [exact E|].
  intros host port Hsp Hs Hl.
  assert (Hstar : NoProxy cfg <> "*").
  { intros Hx. rewrite Hx in Hsp. injection Hsp as Hsp.
    rewrite <- Hsp in Hh. discriminate. }
  rewrite (useProxy_loop cfg _ host port a Hs Hl Hstar Ha), Hsp.
  apply noProxyLoop_continue. intros q [<-|[]]. exact E.
Qed.

End International.

(** * The package run on the reference library *)

(** The table [UseProxyTests] of the package's tests. *)
Example TestUseProxy :
  map (fun host => useProxy (lib := std) (mkConfig "" "" "foobar.com, .barbaz.net")
                            (host ++ ":80"))
      ["localhost"; "127.0.0.1"; "127.0.0.2"; "[::1]"; "[::2]"; "barbaz.net";
       "foobar.com"; "foofoobar.com"; "baz.com"; "localhost.net"; "local.localhost";
       "barbarbaz.net"; "www.foobar.com"]
  = map Ret [false; false; false; false; true; false;
             false; true; true; true; true;
             true; false].
Proof. vm_compute. reflexivity. Qed.

(** Rows of the table [proxyForURLTests]. *)
Example TestConfig_secure :
  ProxyForURL (lib := std) (mkConfig "http.proxy.tld" "secure.proxy.tld" "")
              (request "https" "secure.tld")
  = Ret (Some (mkURL "http" "" None "secure.proxy.tld" "" "" ""), None) /\
  ProxyForURL (lib := std) (mkConfig "http.proxy.tld" "secure.proxy.tld" "")
              (request "http" "insecure.tld")
  = Ret (Some (mkURL "http" "" None "http.proxy.tld" "" "" ""), None) /\
  ProxyForURL (lib := std) (mkConfig "http.proxy.tld" "https://secure.proxy.tld" "")
              (request "https" "secure.tld")
  = Ret (Some (mkURL "https" "" None "secure.proxy.tld" "" "" ""), None).
Proof. vm_compute. repeat split. Qed.

Example TestConfig_noenv :
  ProxyForURL (lib := std) (mkConfig "proxy" "" ".example.com") (request "http" "example.com")
  = Ret (None, None) /\
  ProxyForURL (lib := std) (mkConfig "proxy" "" "ample.com") (request "http" "example.com")
  = Ret (Some (mkURL "http" "" None "proxy" "" "" ""), None) /\
  ProxyForURL (lib := std) (mkConfig "socks5://127.0.0.1" "" "") (request "http" "example.com")
  = Ret (Some (mkURL "socks5" "" None "127.0.0.1" "" "" ""), None).
Proof. vm_compute. repeat split. Qed.

Ltac run :=
  first [ reflexivity
        | discriminate
        | apply not_loopback_by_test; reflexivity
        | left; reflexivity ].

Lemma loopback_never_proxied_witness :
  useProxy (lib := std) (mkConfig "proxy" "" "example.com") "localhost:80" = Ret false /\
  useProxy (lib := std) (mkConfig "proxy" "" "example.com") "127.0.0.1:80" = Ret false /\
  useProxy (lib := std) (mkConfig "proxy" "" "example.com") "[::1]:80" = Ret false.
Proof.
  split; [|split].
  - apply (@loopback_never_proxied std _ "localhost:80" "localhost" "80"); [reflexivity|].
    left. reflexivity.
  - apply (@loopback_never_proxied std _ "127.0.0.1:80" "127.0.0.1" "80"); [reflexivity|].
    right. exists [0;0;0;0;0;0;0;0;0;0;255;255;127;0;0;1]. split; [reflexivity|].
    left. exists 0, 0, 1. reflexivity.
  - apply (@loopback_never_proxied std _ "[::1]:80" "::1" "80"); [reflexivity|].
    right. exists IPv6loopback. split; [reflexivity|]. right. reflexivity.
Defined.

Lemma domain_entry_rule_witness :
  useProxy (lib := std) (mkConfig "proxy" "" "example.com") "example.com:80" = Ret false /\
  useProxy (lib := std) (mkConfig "proxy" "" "example.com") "foo.example.com:80" = Ret false /\
  useProxy (lib := std) (mkConfig "proxy" "" "example.com") "fooexample.com:80" = Ret true.
Proof.
  split; [|split].
  - apply (@domain_entry_rule std (mkConfig "proxy" "" "example.com") "example.com:80"
             "example.com" "80" "example.com" "example.com" "example.com"); try run.
  - apply (@domain_entry_rule std (mkConfig "proxy" "" "example.com") "foo.example.com:80"
             "foo.example.com" "80" "foo.example.com" "example.com" "example.com"); try run.
    right. exists "foo". reflexivity.
  - apply (@domain_entry_rule std (mkConfig "proxy" "" "example.com") "fooexample.com:80"
             "fooexample.com" "80" "fooexample.com" "example.com" "example.com"); try run.
    intros H. apply entryRule_domain in H; [discriminate H | discriminate | reflexivity].
Defined.

Lemma subdomain_entry_rule_witness :
  useProxy (lib := std) (mkConfig "proxy" "" ".foo.com") "bar.foo.com:80" = Ret false /\
  useProxy (lib := std) (mkConfig "proxy" "" ".foo.com") "foo.com:80" = Ret false /\
  useProxy (lib := std) (mkConfig "proxy" "" ".foo.com") "xfoo.com:80" = Ret true.
Proof.
  split; [|split].
  - apply (@subdomain_entry_rule std (mkConfig "proxy" "" ".foo.com") "bar.foo.com:80"
             "bar.foo.com" "80" "bar.foo.com" ".foo.com" "foo.com"); try run.
    left. exists "bar". reflexivity.
  - apply (@subdomain_entry_rule std (mkConfig "proxy" "" ".foo.com") "foo.com:80"
             "foo.com" "80" "foo.com" ".foo.com" "foo.com"); try run.
    right. reflexivity.
  - apply (@subdomain_entry_rule std (mkConfig "proxy" "" ".foo.com") "xfoo.com:80"
             "xfoo.com" "80" "xfoo.com" ".foo.com" "foo.com"); try run.
    intros H. apply entryRule_subdomain in H. discriminate H.
Defined.

Lemma star_disables_proxying_witness :
  useProxy (lib := std) (mkConfig "proxy" "" "*") "example.com:80" = Ret false /\
  ProxyForURL (lib := std) (mkConfig "proxy" "" "*") (request "http" "example.com")
  = Ret (None, None).
Proof.
  split.
  - apply (proj1 (@star_disables_proxying std (mkConfig "proxy" "" "*") eq_refl)).
    discriminate.
  - apply (proj2 (@star_disables_proxying std (mkConfig "proxy" "" "*") eq_refl)).
Defined.

Lemma unknown_scheme_is_returned_witness :
  ProxyForURL (lib := std) (mkConfig "proxy:abc" "" "") (request "http" "example.com")
  = Ret (Some (mkURL "proxy" "abc" None "" "" "" ""), None) /\
  ProxyForURL (lib := std) (mkConfig "proxy:abc" "" "example.com")
              (request "http" "example.com")
  = Ret (None, None).
Proof.
  split.
  - apply (@unknown_scheme_is_returned std (mkConfig "proxy:abc" "" "")
             (request "http" "example.com") (mkURL "proxy" "abc" None "" "" "" "")
             (url_Error "parse" "http://proxy:abc" "invalid port after host") true);
      run.
  - apply (@unknown_scheme_is_returned std (mkConfig "proxy:abc" "" "example.com")
             (request "http" "example.com") (mkURL "proxy" "abc" None "" "" "" "")
             (url_Error "parse" "http://proxy:abc" "invalid port after host") false);
      run.
Defined.

(** The candidate [proxy:abc] parses as a URL of scheme [proxy], its repair
    [http://proxy:abc] does not parse (the port is not a number), and the
    request is proxied through the URL of scheme [proxy]. *)
Lemma unknown_scheme_counterexample :
  candidateProxy (mkConfig "proxy:abc" "" "") (request "http" "example.com") = "proxy:abc" /\
  @url_Parse std "proxy:abc" = inl (mkURL "proxy" "abc" None "" "" "" "") /\
  unknownScheme (mkURL "proxy" "abc" None "" "" "" "") = true /\
  @url_Parse std "http://proxy:abc"
  = inr (url_Error "parse" "http://proxy:abc" "invalid port after host") /\
  ProxyForURL (lib := std) (mkConfig "proxy:abc" "" "") (request "http" "example.com")
  <> Ret (None, None).
Proof.
  split; [reflexivity|]. split; [reflexivity|]. split; [reflexivity|].
  split; [reflexivity|]. vm_compute. discriminate.
Qed.


Lemma repair_with_http_prefix_witness :
  ProxyForURL (lib := std) (mkConfig "127.0.0.1:8080" "" "") (request "http" "example.com")
  = Ret (Some (mkURL "http" "" None "127.0.0.1:8080" "" "" ""), None) /\
  ProxyForURL (lib := std) (mkConfig "127.0.0.1:http" "" "") (request "http" "example.com")
  = Ret (None,
         Some (invalid_proxy_address "127.0.0.1:http"
                 (url_Error "parse" "127.0.0.1:http"
                            "first path segment in URL cannot contain colon"))).
Proof.
  split.
  - apply (proj1 (@repair_with_http_prefix std (mkConfig "127.0.0.1:8080" "" "")
                    (request "http" "example.com")
                    ltac:(discriminate) eq_refl ltac:(intros u H; discriminate H))).
    reflexivity.
  - apply (proj2 (@repair_with_http_prefix std (mkConfig "127.0.0.1:http" "" "")
                    (request "http" "example.com")
                    ltac:(discriminate) eq_refl ltac:(intros u H; discriminate H))
                 _ (url_Error "parse" "http://127.0.0.1:http" "invalid port after host"));
      reflexivity.
Defined.

Lemma malformed_entries_are_skipped_witness :
  (exists b, useProxy (lib := std) (mkConfig "proxy" "" ":1") "example.com:80" = Ret b) /\
  noProxyEntry (lib := std) "example.com" "  " = Ret Continue /\
  noProxyEntry (lib := std) "example.com" ":1" = Ret Continue /\
  useProxy (lib := std) (mkConfig "proxy" "" ":1") "example.com:80" = Ret true.
Proof.
  destruct (@malformed_entries_are_skipped std) as (T & B & S & U).
  split; [apply T|]. split; [|split].
  - apply B. reflexivity.
  - apply S; [reflexivity | discriminate].
  - apply (U _ "example.com:80" "example.com" "80" "example.com"); run.
Defined.

(** With NoProxy [:1], two canonical addresses that are not loopback hosts
    and are not proxied: that of the host [[a], which does not split, and
    that of the empty host, [:80], whose form without port is the empty
    string, as is that of the entry. *)
Lemma malformed_entry_counterexample :
  (canonicalAddr (lib := std) (request "http" "[a") = "[a:80" /\
   net_SplitHostPort "[a:80" = inr "missing ']' in address" /\
   useProxy (lib := std) (mkConfig "proxy" "" ":1") "[a:80" = Ret false) /\
  (canonicalAddr (lib := std) (request "http" "") = ":80" /\
   net_SplitHostPort ":80" = inl ("", "80") /\
   ~ loopbackHost (lib := std) "" /\
   useProxy (lib := std) (mkConfig "proxy" "" ":1") ":80" = Ret false).
Proof.
  split.
  - split; [reflexivity|]. split; reflexivity.
  - split; [reflexivity|]. split; [reflexivity|].
    split; [apply not_loopback_by_test|]; reflexivity.
Qed.

Lemma localhost_test_is_case_sensitive_witness :
  useProxy (lib := std) (mkConfig "proxy" "" "") "LOCALHOST:80" = Ret true /\
  useProxy (lib := std) (mkConfig "proxy" "" "") "localhost:80" = Ret false /\
  useProxy (lib := std) (mkConfig "proxy" "" "localhost") "LOCALHOST:80" = Ret false.
Proof.
  destruct (@localhost_test_is_case_sensitive std
              ltac:(apply not_loopback_by_test; reflexivity)) as (_ & A & B & C).
  split; [apply A|]. split; [apply B | apply C].
Defined.

Lemma unconverted_entry_does_not_match_witness :
  canonicalAddr (lib := std) (request "http" Std.buecher_de) = "xn--bcher-kva.de:80" /\
  noProxyEntry (lib := std) "xn--bcher-kva.de" Std.buecher_de = Ret Continue /\
  useProxy (lib := std) (mkConfig "proxy" "" Std.buecher_de) "xn--bcher-kva.de:80" = Ret true.
Proof.
  destruct (@unconverted_entry_does_not_match std (mkConfig "proxy" "" Std.buecher_de)
              (request "http" Std.buecher_de) "xn--bcher-kva.de" Std.buecher_de
              eq_refl eq_refl eq_refl eq_refl eq_refl) as (a & Ha & E & U).
  assert (a = "xn--bcher-kva.de") by (vm_compute in Ha; congruence). subst a.
  split; [reflexivity|]. split; [exact E|].
  apply (U "xn--bcher-kva.de" "80"); run.
Defined.

(** The host [Kelvin.com] written with KELVIN SIGN: IDNA maps the sign to
    [k], so the canonical address is [kelvin.com:80]; lower-casing maps it
    to [k] as well, so the entry written with the sign is compared as
    [kelvin.com] and matches. *)
Lemma unconverted_entry_counterexample :
  isASCII (URL_Hostname (request "http" Std.Kelvin_com)) = false /\
  idnaASCII (lib := std) (URL_Hostname (request "http" Std.Kelvin_com)) = inl "kelvin.com" /\
  canonicalAddr (lib := std) (request "http" Std.Kelvin_com) = "kelvin.com:80" /\
  net_SplitHostPort "kelvin.com:80" = inl ("kelvin.com", "80") /\
  ~ loopbackHost (lib := std) "kelvin.com" /\
  strings_Split Std.Kelvin_com "," = [Std.Kelvin_com] /\
  hostOnly (lib := std) Std.Kelvin_com = Ret "kelvin.com" /\
  noProxyEntry (lib := std) "kelvin.com" Std.Kelvin_com = Ret (Return false) /\
  useProxy (lib := std) (mkConfig "proxy" "" Std.Kelvin_com) "kelvin.com:80" = Ret false.
Proof.
  repeat (split; [first [reflexivity | apply not_loopback_by_test; reflexivity]|]).
  reflexivity.
Qed.

(** * Occurrences of a byte *)

Lemma index_from_absent (c : ascii) (s : string) (i j : Z) :
  0 <= i -> 0 <= j -> index_from c s i = -1 -> index_from c s j = -1.
Proof.
  revert i j. induction s as [|x s IH]; intros i j Hi Hj; [reflexivity|].
  cbn [index_from]. destruct (Ascii.eqb x c); [lia|].
  apply IH; lia.
Qed.

Lemma lacks_empty (c : ascii) : lacks EmptyString c.
Proof. reflexivity. Qed.

Lemma lacks_String (x c : ascii) (s : string) :
  lacks (String x s) c <-> x <> c /\ lacks s c.
Proof.
  unfold lacks, strings_IndexByte. cbn [index_from].
  destruct (Ascii.eqb_spec x c) as [E|E].
  - split; [discriminate | intros [H _]; contradiction].
  - split.
    + intros H. split; [exact E|]. now apply (index_from_absent c s (0 + 1) 0).
    + intros [_ H]. now apply (index_from_absent c s 0 (0 + 1)).
Qed.

Lemma lacks_app (a b : string) (c : ascii) :
  lacks (a ++ b) c <-> lacks a c /\ lacks b c.
Proof.
  induction a as [|x a IH]; cbn [append].
  - split; [intros H; split; [apply lacks_empty | exact H] | now intros [_ H]].
  - rewrite !lacks_String, IH. tauto.
Qed.

Lemma index_from_first (c : ascii) (a b : string) (i : Z) :
  lacks a c -> index_from c (a ++ String c b) i = i + len a.
Proof.
  revert i. induction a as [|x a IH]; intros i H; cbn [append index_from].
  - rewrite Ascii.eqb_refl. change (len "") with 0. lia.
  - apply lacks_String in H as [Hx Ha]. apply Ascii.eqb_neq in Hx. rewrite Hx.
    rewrite IH by exact Ha. rewrite len_String. lia.
Qed.

Lemma IndexByte_first (c : ascii) (a b : string) :
  lacks a c -> strings_IndexByte (a ++ String c b) c = len a.
Proof. intros H. unfold strings_IndexByte. now rewrite index_from_first. Qed.

Lemma last_index_from_absent (c : ascii) (s : string) (i acc : Z) :
  lacks s c -> last_index_from c s i acc = acc.
Proof.
  revert i acc. induction s as [|x s IH]; intros i acc H; [reflexivity|].
  apply lacks_String in H as [Hx Hs]. apply Ascii.eqb_neq in Hx.
  cbn [last_index_from]. rewrite Hx. now apply IH.
Qed.

Lemma last_index_from_app (c : ascii) (a b : string) (i acc : Z) :
  last_index_from c (a ++ b) i acc
  = last_index_from c b (i + len a) (last_index_from c a i acc).
Proof.
  revert i acc. induction a as [|x a IH]; intros i acc; cbn [append last_index_from].
  - change (len "") with 0. now rewrite Z.add_0_r.
  - rewrite IH, len_String. f_equal. lia.
Qed.

Lemma LastIndex_last (c : ascii) (a b : string) :
  lacks b c -> strings_LastIndex (a ++ String c b) c = len a.
Proof.
  intros H. unfold strings_LastIndex. rewrite last_index_from_app.
  cbn [last_index_from]. rewrite Ascii.eqb_refl.
  now rewrite last_index_from_absent.
Qed.

Lemma LastIndex_app_absent (c : ascii) (a b : string) :
  lacks b c -> strings_LastIndex (a ++ b) c = strings_LastIndex a c.
Proof.
  intros H. unfold strings_LastIndex. rewrite last_index_from_app.
  now rewrite last_index_from_absent.
Qed.

Lemma LastIndex_absent (c : ascii) (s : string) :
  lacks s c -> strings_LastIndex s c = -1.
Proof. intros H. unfold strings_LastIndex. now apply last_index_from_absent. Qed.

Lemma take_app (a b : string) : str_take (String.length a) (a ++ b) = a.
Proof. induction a as [|x a IH]; cbn; [now destruct b | now rewrite IH]. Qed.

Lemma to_nat_len (s : string) : Z.to_nat (len s) = String.length s.
Proof. unfold len. apply Nat2Z.id. Qed.

Lemma digits_lack (p : string) (c : ascii) :
  all_digits p = true -> byte_val c < byte_val "0" \/ byte_val "9" < byte_val c ->
  lacks p c.
Proof.
  intros H Hc. induction p as [|x p IH]; [apply lacks_empty|].
  cbn [all_digits] in H. apply andb_true_iff in H as [H Hp].
  apply andb_true_iff in H as [H0 H9]. apply Z.leb_le in H0, H9.
  apply lacks_String. split; [|now apply IH].
  intros ->. lia.
Qed.

Lemma digits_lack_separators (p : string) :
  all_digits p = true -> lacks p ":" /\ lacks p "[" /\ lacks p "]".
Proof.
  intros H. repeat split; apply digits_lack; try exact H; vm_compute; intuition congruence.
Qed.

(** * Joining and splitting host and port *)

Lemma lacks_neg (s : string) (c : ascii) :
  lacks s c -> (0 <=? strings_IndexByte s c) = false.
Proof. unfold lacks. intros ->. reflexivity. Qed.

Lemma IndexByte_neg_lacks (s : string) (c : ascii) :
  (0 <=? strings_IndexByte s c) = false -> lacks s c.
Proof.
  unfold lacks, strings_IndexByte. intros H. apply Z.leb_gt in H.
  assert (G : forall t i, 0 <= i -> index_from c t i < 0 -> index_from c t i = -1).
  { induction t as [|y t IH]; intros i Hi Hlt; [reflexivity|].
    cbn [index_from] in *. destruct (Ascii.eqb y c); [lia|]. apply IH; lia. }
  apply G; lia.
Qed.

Lemma SplitHostPort_JoinHostPort (host port : string) :
  lacks host "[" -> lacks host "]" ->
  lacks port ":" -> lacks port "[" -> lacks port "]" ->
  net_SplitHostPort (net_JoinHostPort host port) = inl (host, port).
Proof.
  intros Hho Hhc Hpc Hpo Hpb. unfold net_JoinHostPort.
  pose proof (len_nonneg host) as Lh. pose proof (len_nonneg port) as Lp.
  destruct (0 <=? strings_IndexByte host ":") eqn:Ec.
  - (* "[" ++ host ++ "]:" ++ port *)
    set (hp := "[" ++ host ++ "]:" ++ port).
    assert (E : hp = (String "[" (host ++ "]")) ++ String ":" port).
    { unfold hp. cbn [append]. now rewrite app_assoc. }
    assert (Eb : hp = (String "[" host) ++ String "]" (String ":" port)) by reflexivity.
    assert (Li : strings_LastIndex hp ":" = len host + 2).
    { rewrite E, (LastIndex_last ":" _ port Hpc), len_String, len_app.
      change (len "]") with 1. lia. }
    assert (Ie : strings_IndexByte hp "]" = len host + 1).
    { rewrite Eb, (IndexByte_first "]" (String "[" host)), len_String; [reflexivity|].
      apply lacks_String. split; [discriminate | exact Hhc]. }
    assert (Ll : len hp = len host + 3 + len port).
    { rewrite Eb, len_app, !len_String. lia. }
    assert (D1 : str_drop 1 hp = host ++ String "]" (String ":" port)) by reflexivity.
    assert (D2 : str_drop (S (S (String.length host))) hp = String ":" port).
    { unfold hp. cbn [append].
      change (str_drop (S (S (String.length host)))
                (String "[" (host ++ String "]" (String ":" port))))
        with (str_drop (S (String.length host)) (host ++ String "]" (String ":" port))).
      now rewrite drop_S, drop_app. }
    assert (Pre : strings_HasPrefix hp "[" = true).
    { unfold hp, strings_HasPrefix. cbn [append String.prefix].
      destruct (ascii_dec "[" "["); [|contradiction].
      now destruct (host ++ String "]" (String ":" port)). }
    unfold net_SplitHostPort. fold hp. rewrite Li, Ie, Ll, Pre.
    replace (len host + 2 <? 0) with false by (symmetry; apply Z.ltb_ge; lia).
    replace (len host + 1 <? 0) with false by (symmetry; apply Z.ltb_ge; lia).
    replace (len host + 1 + 1 =? len host + 3 + len port) with false
      by (symmetry; apply Z.eqb_neq; lia).
    replace (len host + 1 + 1 =? len host + 2) with true
      by (symmetry; apply Z.eqb_eq; lia).
    replace (Z.to_nat (len host + 1 - 1)) with (String.length host)
      by (rewrite <- to_nat_len; lia).
    replace (Z.to_nat (len host + 1 + 1)) with (S (S (String.length host)))
      by (rewrite <- to_nat_len; lia).
    replace (Z.to_nat (len host + 2 + 1)) with (S (S (S (String.length host))))
      by (rewrite <- to_nat_len; lia).
    change (Z.to_nat 1) with 1%nat.
    rewrite (drop_S (S (S (String.length host)))), D2, D1, take_app.
    rewrite (lacks_neg (host ++ String "]" (String ":" port)) "[").
    2:{ apply lacks_app. split; [exact Hho|]. apply lacks_String. split; [discriminate|].
        apply lacks_String. split; [discriminate | exact Hpo]. }
    rewrite (lacks_neg (String ":" port) "]")
      by (apply lacks_String; split; [discriminate | exact Hpb]).
    reflexivity.
  - (* host ++ ":" ++ port *)
    pose proof (IndexByte_neg_lacks host ":" Ec) as Hhn.
    set (hp := host ++ ":" ++ port).
    assert (E : hp = host ++ String ":" port) by reflexivity.
    assert (Li : strings_LastIndex hp ":" = len host)
      by (rewrite E; now apply LastIndex_last).
    assert (Pre : strings_HasPrefix hp "[" = false).
    { rewrite E. unfold strings_HasPrefix. destruct host as [|x host]; [reflexivity|].
      apply lacks_String in Hho as [Hx _]. cbn [append String.prefix].
      destruct (ascii_dec "[" x) as [<-|_]; [contradiction | reflexivity]. }
    assert (T : str_take (String.length host) hp = host) by apply take_app.
    assert (D : str_drop (S (String.length host)) hp = port).
    { rewrite drop_S. unfold hp. now rewrite drop_app. }
    unfold net_SplitHostPort. fold hp. rewrite Li, Pre.
    replace (len host <? 0) with false by (symmetry; apply Z.ltb_ge; lia).
    rewrite to_nat_len, T, Ec.
    replace (Z.to_nat (len host + 1)) with (S (String.length host))
      by (rewrite <- to_nat_len; lia).
    change (Z.to_nat 0) with 0%nat. change (str_drop 0 hp) with hp. rewrite D.
    rewrite (lacks_neg hp "[").
    2:{ apply lacks_app. split; [exact Hho|].
        apply lacks_String. split; [discriminate | exact Hpo]. }
    rewrite (lacks_neg hp "]").
    2:{ apply lacks_app. split; [exact Hhc|].
        apply lacks_String. split; [discriminate | exact Hpb]. }
    reflexivity.
Qed.

(** * The canonical address *)

Lemma URL_Port_digits (u : URL) : all_digits (URL_Port u) = true.
Proof.
  unfold URL_Port, url_splitHostPort.
  pose proof (LastIndex_bounds (Host u) ":") as B.
  set (colon := strings_LastIndex (Host u) ":") in *.
  assert (P : all_digits (snd (if negb (colon =? -1) &&
                                  validOptionalPort (str_drop (Z.to_nat colon) (Host u))
                               then (str_take (Z.to_nat colon) (Host u),
                                     str_drop (Z.to_nat (colon + 1)) (Host u))
                               else (Host u, EmptyString))) = true).
  { destruct (colon =? -1) eqn:E; [reflexivity|]. cbn [negb andb].
    destruct (validOptionalPort _) eqn:V; [|reflexivity]. cbn [snd].
    apply Z.eqb_neq in E.
    replace (Z.to_nat (colon + 1)) with (S (Z.to_nat colon)) by lia.
    rewrite drop_S. unfold validOptionalPort in V.
    destruct (str_drop (Z.to_nat colon) (Host u)) as [|c rest]; [reflexivity|].
    now apply andb_true_iff in V as [_ V]. }
  destruct (if negb (colon =? -1) && validOptionalPort _ then _ else _) as [host port].
  cbn [snd] in P. destruct (strings_HasPrefix host "[" && strings_HasSuffix host "]"); exact P.
Qed.

Lemma canonicalPort_digits (u : URL) : all_digits (canonicalPort u) = true.
Proof.
  unfold canonicalPort. destruct (String.eqb (URL_Port u) ""); [|apply URL_Port_digits].
  unfold portMap. cbn [map_index].
  repeat match goal with
         | |- context [String.eqb ?a (Scheme u)] => destruct (String.eqb a (Scheme u))
         end; reflexivity.
Qed.

Lemma stripPort_port (b p : string) :
  lacks p ":" -> lacks p "]" -> stripPort (b ++ String ":" p) = Ret b.
Proof.
  intros Hc Hb. unfold stripPort, hasPort.
  rewrite (LastIndex_last ":" b p Hc).
  change (b ++ String ":" p) with (b ++ (String ":" p)).
  rewrite (LastIndex_app_absent "]" b (String ":" p))
    by (apply lacks_String; split; [discriminate | exact Hb]).
  pose proof (LastIndex_bounds b "]"). pose proof (len_nonneg b). pose proof (len_nonneg p).
  replace (len b >? strings_LastIndex b "]") with true
    by (symmetry; apply Z.gtb_lt; lia).
  unfold slice_to. rewrite len_app, len_String.
  replace ((0 <=? len b) && (len b <=? len b + (len p + 1))) with true
    by (symmetry; apply andb_true_iff; split; apply Z.leb_le; lia).
  now rewrite to_nat_len, take_app.
Qed.

Lemma JoinHostPort_bracketed (host port : string) :
  net_JoinHostPort host port = bracketed host ++ String ":" port.
Proof.
  unfold net_JoinHostPort, bracketed.
  destruct (0 <=? strings_IndexByte host ":"); [|reflexivity].
  cbn [append]. f_equal. now rewrite app_assoc.
Qed.

Section Canonical.

Context {lib : GoLibrary}.

Lemma canonicalAddr_parts (req : URL) :
  canonicalAddr req = net_JoinHostPort (canonicalHost req) (canonicalPort req).
Proof. reflexivity. Qed.

(** X1: whatever the host of the URL holds, the canonical address has a port
    in the sense of [hasPort], and stripping it gives back the host
    (converted by IDNA when that applies), in brackets when it contains a
    colon. *)
Theorem canonicalAddr_stripPort (req : URL) :
  hasPort (canonicalAddr req) = true /\
  stripPort (canonicalAddr req) = Ret (bracketed (canonicalHost req)).
Proof.
  destruct (digits_lack_separators _ (canonicalPort_digits req)) as (Hc & _ & Hb).
  assert (S : stripPort (canonicalAddr req) = Ret (bracketed (canonicalHost req))).
  { rewrite canonicalAddr_parts, JoinHostPort_bracketed. now apply stripPort_port. }
  split; [|exact S].
  unfold stripPort in S. destruct (hasPort (canonicalAddr req)) eqn:E; [reflexivity|].
  exfalso. injection S as S.
  rewrite canonicalAddr_parts, JoinHostPort_bracketed in S.
  assert (L : String.length (bracketed (canonicalHost req) ++ String ":" (canonicalPort req))
              = String.length (bracketed (canonicalHost req))) by now rewrite S.
  rewrite length_app in L. cbn [String.length] in L. lia.
Qed.

(** X2: when the host of the canonical address has no square bracket,
    [net.SplitHostPort] splits the address back into that host and the port
    (explicit, or the default of the scheme, or empty): the split that
    [useProxy] starts with does not fail on it. *)
Theorem canonicalAddr_splits (req : URL) :
  lacks (canonicalHost req) "[" ->
  lacks (canonicalHost req) "]" ->
  net_SplitHostPort (canonicalAddr req) = inl (canonicalHost req, canonicalPort req).
Proof.
  intros Ho Hc.
  destruct (digits_lack_separators _ (canonicalPort_digits req)) as (Pc & Po & Pb).
  rewrite canonicalAddr_parts. now apply SplitHostPort_JoinHostPort.
Qed.

(** X3: a request whose host is a loopback host ([localhost], or text that
    parses as an address in 127.0.0.0/8 or as ::1) gets no proxy and no
    error from [ProxyForURL], whatever the configuration. *)
Theorem loopback_request_not_proxied (cfg : Config) (req : URL) :
  lacks (canonicalHost req) "[" ->
  lacks (canonicalHost req) "]" ->
  loopbackHost (canonicalHost req) ->
  ProxyForURL cfg req = Ret (None, None).
Proof.
  intros Ho Hc Hl. apply ProxyForURL_skipped.
  apply (useProxy_loopback cfg _ (canonicalHost req) (canonicalPort req)).
  - rewrite canonicalAddr_parts.
    destruct (digits_lack_separators _ (canonicalPort_digits req)) as (Pc & Po & Pb).
    now apply SplitHostPort_JoinHostPort.
  - now apply loopbackTest_iff.
Qed.

(** X4: as the comment of [ProxyForURL] says, a request whose [Host] is
    [localhost], with or without a port number, gets no proxy and no
    error. *)
Theorem localhost_request_not_proxied (cfg : Config) (req : URL) (port : string) :
  all_digits port = true ->
  Host req = "localhost" \/ Host req = "localhost:" ++ port ->
  ProxyForURL cfg req = Ret (None, None).
Proof.
  intros Hd Hh.
  assert (E : URL_Hostname req = "localhost").
  { unfold URL_Hostname, url_splitHostPort. destruct Hh as [-> | ->]; [reflexivity|].
    destruct (digits_lack_separators _ Hd) as (Pc & _ & _).
    change ("localhost:" ++ port) with ("localhost" ++ String ":" port).
    rewrite (LastIndex_last ":" "localhost" port Pc).
    change (len "localhost") with 9. change (Z.to_nat 9) with 9%nat.
    change (Z.to_nat (9 + 1)) with 10%nat.
    cbn [append str_drop str_take validOptionalPort negb Z.eqb].
    rewrite Hd. reflexivity. }
  assert (C : canonicalHost req = "localhost").
  { unfold canonicalHost. rewrite E. reflexivity. }
  apply ProxyForURL_skipped.
  apply (useProxy_loopback cfg _ "localhost" (canonicalPort req)); [|reflexivity].
  destruct (digits_lack_separators _ (canonicalPort_digits req)) as (Pc & Po & Pb).
  rewrite canonicalAddr_parts, C.
  now apply SplitHostPort_JoinHostPort.
Qed.

End Canonical.

(** * Trimming and lower-casing ASCII strings *)

Lemma trim_left_app (a b : string) (c : ascii) :
  asciiSpace c = false ->
  trim_left_ascii (a ++ String c b) = trim_left_ascii a ++ String c b.
Proof.
  intros Hc. induction a as [|x a IH]; cbn [append trim_left_ascii].
  - now rewrite Hc.
  - destruct (asciiSpace x); [exact IH | reflexivity].
Qed.

Lemma trim_right_keep (a t : string) :
  t <> EmptyString -> trim_right_ascii t = t -> trim_right_ascii (a ++ t) = a ++ t.
Proof.
  intros Hne Ht. induction a as [|x a IH]; cbn [append trim_right_ascii]; [exact Ht|].
  rewrite IH. destruct (a ++ t) eqn:E; [|reflexivity].
  destruct a; cbn in E; [contradiction | discriminate].
Qed.

Lemma digit_not_space (c : ascii) :
  (byte_val "0" <=? byte_val c) && (byte_val c <=? byte_val "9") = true ->
  asciiSpace c = false.
Proof.
  intros H. apply andb_true_iff in H as [H0 H9]. apply Z.leb_le in H0, H9.
  change (byte_val "0") with 48 in H0. unfold asciiSpace. cbv zeta.
  repeat (replace (byte_val c =? _) with false by (symmetry; apply Z.eqb_neq; lia)).
  reflexivity.
Qed.

Lemma trim_right_digits (p : string) :
  all_digits p = true -> trim_right_ascii p = p.
Proof.
  induction p as [|x p IH]; [reflexivity|]. cbn [all_digits]. intros H.
  apply andb_true_iff in H as [Hx Hp]. cbn [trim_right_ascii]. rewrite (IH Hp).
  destruct p; [|reflexivity]. now rewrite (digit_not_space x Hx).
Qed.

Lemma trim_right_port (p : string) :
  all_digits p = true -> trim_right_ascii (String ":" p) = String ":" p.
Proof.
  intros H. cbn [trim_right_ascii]. rewrite (trim_right_digits p H).
  now destruct p.
Qed.

Lemma map_bytes_app (f : ascii -> ascii) (a b : string) :
  map_bytes f (a ++ b) = map_bytes f a ++ map_bytes f b.
Proof. induction a as [|x a IH]; cbn [append map_bytes]; [reflexivity | now rewrite IH]. Qed.

Lemma lower_digits (p : string) :
  all_digits p = true -> map_bytes lower_byte p = p.
Proof.
  induction p as [|x p IH]; [reflexivity|]. cbn [all_digits]. intros H.
  apply andb_true_iff in H as [Hx Hp]. cbn [map_bytes]. rewrite (IH Hp). f_equal.
  apply andb_true_iff in Hx as [H0 H9]. apply Z.leb_le in H0, H9.
  unfold lower_byte. change (byte_val "A") with 65. change (byte_val "9") with 57 in H9.
  replace (65 <=? byte_val x) with false by (symmetry; apply Z.leb_gt; lia).
  reflexivity.
Qed.

Lemma bracketed_ascii (host : string) :
  isASCII host = true -> isASCII (bracketed host) = true.
Proof.
  intros H. unfold bracketed. destruct (0 <=? strings_IndexByte host ":"); [|exact H].
  now rewrite !isASCII_app, H.
Qed.

Section Ports.

Context {lib : GoLibrary}.

Lemma hostOnly_join (host port : string) :
  isASCII host = true -> all_digits port = true ->
  hostOnly (net_JoinHostPort host port)
  = Ret (map_bytes lower_byte (trim_left_ascii (bracketed host))).
Proof.
  intros Hh Hp. rewrite JoinHostPort_bracketed.
  pose proof (bracketed_ascii host Hh) as Hb.
  pose proof (all_digits_ascii port Hp) as Hpa.
  destruct (digits_lack_separators port Hp) as (Pc & _ & Pb).
  unfold hostOnly, strings_TrimSpace.
  replace (isASCII (bracketed host ++ String ":" port)) with true
    by (symmetry; rewrite isASCII_app, Hb; cbn [isASCII andb]; exact Hpa).
  rewrite trim_left_app by reflexivity.
  rewrite trim_right_keep by (discriminate || now apply trim_right_port).
  unfold strings_ToLower.
  replace (isASCII (trim_left_ascii (bracketed host) ++ String ":" port)) with true
    by (symmetry; rewrite isASCII_app, (isASCII_trim_left _ Hb); cbn [isASCII andb];
        exact Hpa).
  rewrite map_bytes_app. cbn [map_bytes]. rewrite (lower_digits port Hp).
  change (lower_byte ":") with ":"%char.
  now apply stripPort_port.
Qed.

(** X5: the port of the address has no part in the decision of [useProxy]:
    for an ASCII host without square brackets, two addresses that differ
    only in their (numeric or empty) port get the same answer. *)
Theorem port_is_ignored (cfg : Config) (host p1 p2 : string) :
  isASCII host = true ->
  lacks host "[" -> lacks host "]" ->
  all_digits p1 = true -> all_digits p2 = true ->
  useProxy cfg (net_JoinHostPort host p1) = useProxy cfg (net_JoinHostPort host p2).
Proof.
  intros Ha Ho Hc H1 H2.
  destruct (digits_lack_separators p1 H1) as (C1 & O1 & B1).
  destruct (digits_lack_separators p2 H2) as (C2 & O2 & B2).
  pose proof (SplitHostPort_JoinHostPort host p1 Ho Hc C1 O1 B1) as S1.
  pose proof (SplitHostPort_JoinHostPort host p2 Ho Hc C2 O2 B2) as S2.
  unfold useProxy.
  rewrite (split_ok_nonempty _ _ S1), (split_ok_nonempty _ _ S2), S1, S2.
  now rewrite (hostOnly_join host p1 Ha H1), (hostOnly_join host p2 Ha H2).
Qed.

End Ports.

Lemma lower_byte_keeps (c k : ascii) :
  byte_val k < byte_val "A" \/ byte_val "z" < byte_val k ->
  Ascii.eqb (lower_byte c) k = Ascii.eqb c k.
Proof.
  intros Hk. unfold lower_byte.
  destruct ((byte_val "A" <=? byte_val c) && (byte_val c <=? byte_val "Z")) eqn:E;
    [|reflexivity].
  apply andb_true_iff in E as [EA EZ]. apply Z.leb_le in EA, EZ.
  change (byte_val "A") with 65 in *. change (byte_val "Z") with 90 in *.
  change (byte_val "z") with 122 in *.
  assert (V : byte_val (ascii_of_N (N_of_ascii c + 32)) = byte_val c + 32).
  { unfold byte_val in *. rewrite N_ascii_embedding by lia. lia. }
  replace (Ascii.eqb c k) with false
    by (symmetry; apply Ascii.eqb_neq; intros ->; lia).
  apply Ascii.eqb_neq. intros E. rewrite E in V. lia.
Qed.

Lemma lower_byte_idem (c : ascii) : lower_byte (lower_byte c) = lower_byte c.
Proof.
  destruct c as [b0 b1 b2 b3 b4 b5 b6 b7].
  destruct b0, b1, b2, b3, b4, b5, b6, b7; reflexivity.
Qed.

Lemma lower_byte_space (c : ascii) : asciiSpace (lower_byte c) = asciiSpace c.
Proof.
  destruct c as [b0 b1 b2 b3 b4 b5 b6 b7].
  destruct b0, b1, b2, b3, b4, b5, b6, b7; reflexivity.
Qed.

(** * The list of entries *)

Lemma Split_nonempty (s : string) (sep : ascii) : strings_Split s sep <> [].
Proof.
  destruct s as [|c s]; cbn [strings_Split]; [discriminate|].
  destruct (Ascii.eqb c sep); [discriminate|].
  destruct (strings_Split s sep); discriminate.
Qed.

Lemma Split_app (a b : string) (sep : ascii) :
  strings_Split (a ++ String sep b) sep
  = (strings_Split a sep ++ strings_Split b sep)%list.
Proof.
  induction a as [|c a IH]; cbn [append strings_Split].
  - now rewrite Ascii.eqb_refl.
  - rewrite IH. destruct (Ascii.eqb c sep); [reflexivity|].
    pose proof (Split_nonempty a sep).
    destruct (strings_Split a sep); [contradiction | reflexivity].
Qed.

Lemma Split_map (f : ascii -> ascii) (s : string) (sep : ascii) :
  (forall c, Ascii.eqb (f c) sep = Ascii.eqb c sep) ->
  strings_Split (map_bytes f s) sep = map (map_bytes f) (strings_Split s sep).
Proof.
  intros Hf. induction s as [|c s IH]; [reflexivity|].
  cbn [map_bytes strings_Split]. rewrite Hf, IH.
  destruct (Ascii.eqb c sep); [reflexivity|].
  destruct (strings_Split s sep); reflexivity.
Qed.

Lemma Split_ascii (s : string) (sep : ascii) :
  isASCII s = true -> forall tok, In tok (strings_Split s sep) -> isASCII tok = true.
Proof.
  induction s as [|c s IH]; intros H tok Hin.
  - destruct Hin as [<-|[]]. reflexivity.
  - apply isASCII_String in H as [Hc Hs]. cbn [strings_Split] in Hin.
    destruct (Ascii.eqb c sep).
    + destruct Hin as [<-|Hin]; [reflexivity | now apply IH].
    + pose proof (Split_nonempty s sep).
      destruct (strings_Split s sep) as [|t ts]; [contradiction|].
      destruct Hin as [<-|Hin].
      * cbn [isASCII]. rewrite Hc. apply (IH Hs). now left.
      * apply (IH Hs). now right.
Qed.

Lemma trim_left_lower (s : string) :
  trim_left_ascii (map_bytes lower_byte s) = map_bytes lower_byte (trim_left_ascii s).
Proof.
  induction s as [|c s IH]; [reflexivity|]. cbn [map_bytes trim_left_ascii].
  rewrite lower_byte_space. destruct (asciiSpace c); [exact IH | reflexivity].
Qed.

Lemma trim_right_lower (s : string) :
  trim_right_ascii (map_bytes lower_byte s) = map_bytes lower_byte (trim_right_ascii s).
Proof.
  induction s as [|c s IH]; [reflexivity|]. cbn [map_bytes trim_right_ascii].
  rewrite IH, lower_byte_space.
  destruct (trim_right_ascii s); cbn [map_bytes]; [|reflexivity].
  destruct (asciiSpace c); reflexivity.
Qed.

Lemma lower_idem (s : string) :
  map_bytes lower_byte (map_bytes lower_byte s) = map_bytes lower_byte s.
Proof.
  induction s as [|c s IH]; [reflexivity|]. cbn [map_bytes].
  now rewrite lower_byte_idem, IH.
Qed.

Lemma lower_star (s : string) :
  String.eqb (map_bytes lower_byte s) "*" = String.eqb s "*".
Proof.
  destruct s as [|c s]; [reflexivity|]. cbn [map_bytes String.eqb].
  rewrite lower_byte_keeps by (vm_compute; left; reflexivity).
  destruct (Ascii.eqb c "*"); [|reflexivity]. now destruct s.
Qed.

Section Entries.

Context {lib : GoLibrary}.

Lemma normal_form_lower (tok : string) :
  isASCII tok = true ->
  strings_ToLower (strings_TrimSpace (map_bytes lower_byte tok))
  = strings_ToLower (strings_TrimSpace tok).
Proof.
  intros H. pose proof (isASCII_lower tok H) as Hl.
  unfold strings_TrimSpace. rewrite H, Hl.
  rewrite trim_left_lower, trim_right_lower.
  pose proof (isASCII_trim_right _ (isASCII_trim_left _ H)) as Ht.
  unfold strings_ToLower. rewrite Ht, (isASCII_lower _ Ht). apply lower_idem.
Qed.

Lemma noProxyEntry_normal_form (a tok tok' : string) :
  strings_ToLower (strings_TrimSpace tok') = strings_ToLower (strings_TrimSpace tok) ->
  noProxyEntry a tok' = noProxyEntry a tok.
Proof. intros E. unfold noProxyEntry. now rewrite E. Qed.

Lemma noProxyLoop_map (a : string) (f : string -> string) (ps : list string) :
  (forall p, In p ps -> noProxyEntry a (f p) = noProxyEntry a p) ->
  noProxyLoop a (map f ps) = noProxyLoop a ps.
Proof.
  induction ps as [|p ps IH]; intros H; [reflexivity|].
  cbn [map noProxyLoop]. rewrite (H p (or_introl eq_refl)).
  destruct (noProxyEntry a p) as [[|b]|]; cbn [bind]; try reflexivity.
  apply IH. intros q Hq. apply H. now right.
Qed.

(** X6: the entries of NoProxy are compared without regard to the case of
    their ASCII letters: writing an ASCII NoProxy in lower case changes no
    answer of [useProxy]. *)
Theorem NoProxy_case_insensitive (hp hps np addr : string) :
  isASCII np = true ->
  useProxy (mkConfig hp hps (map_bytes lower_byte np)) addr
  = useProxy (mkConfig hp hps np) addr.
Proof.
  intros H. unfold useProxy. cbn [NoProxy]. rewrite lower_star.
  destruct (len addr =? 0); [reflexivity|].
  destruct (net_SplitHostPort addr) as [[host port]|]; [|reflexivity].
  destruct (String.eqb host "localhost"); [reflexivity|].
  destruct (match net_ParseIP host with Some ip => IP_IsLoopback ip | None => false end);
    [reflexivity|].
  destruct (String.eqb np "*"); [reflexivity|].
  destruct (hostOnly addr) as [a|]; cbn [bind]; [|reflexivity].
  rewrite Split_map by (intros c; apply lower_byte_keeps; vm_compute; left; reflexivity).
  apply noProxyLoop_map. intros tok Hin.
  apply noProxyEntry_normal_form, normal_form_lower.
  now apply (Split_ascii np ",").
Qed.

Lemma noProxyLoop_app (a : string) (l1 l2 : list string) :
  noProxyLoop a (l1 ++ l2)%list
  = (b <- noProxyLoop a l1 ;; if b then noProxyLoop a l2 else Ret false).
Proof.
  induction l1 as [|p l1 IH]; cbn [List.app noProxyLoop bind]; [reflexivity|].
  destruct (noProxyEntry_total a p) as [E|E]; rewrite E; cbn [bind]; [exact IH | reflexivity].
Qed.

(** X7: the entries add up: when neither of two NoProxy values is the lone
    asterisk, [useProxy] skips the proxy under the two joined by a comma
    exactly when it does under one of them. *)
Theorem NoProxy_union (hp hps n1 n2 addr : string) :
  n1 <> "*" -> n2 <> "*" ->
  useProxy (mkConfig hp hps (n1 ++ "," ++ n2)) addr = Ret false <->
  useProxy (mkConfig hp hps n1) addr = Ret false \/
  useProxy (mkConfig hp hps n2) addr = Ret false.
Proof.
  intros H1 H2. unfold useProxy. cbn [NoProxy].
  destruct (len addr =? 0); [intuition discriminate|].
  destruct (net_SplitHostPort addr) as [[host port]|]; [|tauto].
  destruct (String.eqb host "localhost"); [tauto|].
  destruct (match net_ParseIP host with Some ip => IP_IsLoopback ip | None => false end);
    [tauto|].
  apply String.eqb_neq in H1, H2. rewrite H1, H2.
  replace (String.eqb (n1 ++ "," ++ n2) "*") with false.
  2:{ symmetry. apply String.eqb_neq. intros E.
      assert (L : String.length (n1 ++ "," ++ n2) = 1%nat) by now rewrite E.
      rewrite length_app in L. cbn in L.
      destruct n1 as [|c n1]; cbn in *; [discriminate E | lia]. }
  destruct (hostOnly addr) as [a|]; cbn [bind]; [|intuition discriminate].
  change (n1 ++ "," ++ n2) with (n1 ++ String "," n2).
  rewrite Split_app, noProxyLoop_app.
  destruct (noProxyLoop_total a (strings_Split n1 ",")) as [b1 ->].
  destruct (noProxyLoop_total a (strings_Split n2 ",")) as [b2 E2].
  cbn [bind]. destruct b1; [|tauto]. rewrite E2.
  split; [now right | intros [H|H]; [discriminate H | exact H]].
Qed.

(** X8: a leading dot changes nothing: an entry and the same entry with a
    dot in front make the loop return on the same addresses, so as the only
    entry of NoProxy they give the same answers. *)
Theorem leading_dot_is_redundant (hp hps np1 np2 addr tok1 tok2 q : string) :
  np1 <> "*" -> np2 <> "*" ->
  strings_Split np1 "," = [tok1] ->
  strings_Split np2 "," = [tok2] ->
  hostOnly tok1 = Ret q ->
  hostOnly tok2 = Ret (String "." q) ->
  q <> EmptyString ->
  strings_HasPrefix q "." = false ->
  (forall a, noProxyEntry a tok1 = noProxyEntry a tok2) /\
  useProxy (mkConfig hp hps np1) addr = useProxy (mkConfig hp hps np2) addr.
Proof.
  intros N1 N2 S1 S2 H1 H2 Hq Hd.
  assert (E : forall a, noProxyEntry a tok1 = noProxyEntry a tok2).
  { intros a.
    rewrite (noProxyEntry_rule a tok1 q (entry_not_blank tok1 q H1 Hq) H1).
    rewrite (noProxyEntry_rule a tok2 (String "." q)
               (entry_not_blank tok2 _ H2 ltac:(discriminate)) H2).
    assert (R : entryRule a q = entryRule a (String "." q)).
    { apply eq_true_iff_eq.
      rewrite (entryRule_domain a q Hq Hd), entryRule_subdomain.
      unfold matchesDomain, matchesSubdomain. split.
      - intros [->|[pre ->]]; [now right | left; now exists pre].
      - intros [[pre ->]|H]; [right; now exists pre | left; now injection H]. }
    now rewrite R. }
  split; [exact E|].
  unfold useProxy. cbn [NoProxy].
  apply String.eqb_neq in N1, N2. rewrite N1, N2, S1, S2.
  destruct (len addr =? 0); [reflexivity|].
  destruct (net_SplitHostPort addr) as [[host port]|]; [|reflexivity].
  destruct (String.eqb host "localhost"); [reflexivity|].
  destruct (match net_ParseIP host with Some ip => IP_IsLoopback ip | None => false end);
    [reflexivity|].
  destruct (hostOnly addr) as [a|]; cbn [bind noProxyLoop]; [|reflexivity].
  now rewrite E.
Qed.

End Entries.

(** * The outcomes of the resolver *)

Section Outcomes.

Context {lib : GoLibrary}.

(** X9: [ProxyForURL] never panics and has three outcomes only: no proxy and
    no error; a URL and no error, the URL being the parse of the candidate or
    of the candidate prefixed with [http://]; or no URL and the error that
    holds the candidate and the error of its parse.  A URL and an error are
    never returned together. *)
Theorem ProxyForURL_outcomes (cfg : Config) (req : URL) :
  ProxyForURL cfg req = Ret (None, None) \/
  (exists u, ProxyForURL cfg req = Ret (Some u, None) /\
             (url_Parse (candidateProxy cfg req) = inl u \/
              url_Parse ("http://" ++ candidateProxy cfg req) = inl u)) \/
  (exists e, url_Parse (candidateProxy cfg req) = inr e /\
             ProxyForURL cfg req
             = Ret (None, Some (invalid_proxy_address (candidateProxy cfg req) e))).
Proof.
  destruct (string_dec (candidateProxy cfg req) EmptyString) as [Hc|Hc].
  { left. unfold ProxyForURL. rewrite Hc. reflexivity. }
  destruct (useProxy_total cfg (canonicalAddr req)) as [[|] Hu].
  2:{ left. now apply ProxyForURL_skipped. }
  right. rewrite (ProxyForURL_parse cfg req Hc Hu). cbv zeta.
  destruct (url_Parse (candidateProxy cfg req)) as [u|e] eqn:Hp.
  - left. destruct (unknownScheme u).
    + destruct (url_Parse ("http://" ++ candidateProxy cfg req)) as [u'|e'] eqn:Hr.
      * exists u'. split; [reflexivity | now right].
      * exists u. split; [reflexivity | now left].
    + exists u. split; [reflexivity | now left].
  - destruct (url_Parse ("http://" ++ candidateProxy cfg req)) as [u'|e'] eqn:Hr.
    + left. exists u'. split; [reflexivity | now right].
    + right. exists e. split; reflexivity.
Qed.

(** X10: a candidate that parses with the scheme http, https or socks5 is
    returned as parsed, for a request that [useProxy] lets through; the parse
    with [http://] in front has no part in the result. *)
Theorem known_scheme_is_returned (cfg : Config) (req u : URL) :
  candidateProxy cfg req <> EmptyString ->
  useProxy cfg (canonicalAddr req) = Ret true ->
  url_Parse (candidateProxy cfg req) = inl u ->
  Scheme u = "http" \/ Scheme u = "https" \/ Scheme u = "socks5" ->
  ProxyForURL cfg req = Ret (Some u, None).
Proof.
  intros Hc Hu Hp Hs. rewrite (ProxyForURL_parse cfg req Hc Hu). cbv zeta. rewrite Hp.
  replace (unknownScheme u) with false; [reflexivity|].
  unfold unknownScheme. destruct Hs as [-> | [-> | ->]]; reflexivity.
Qed.

(** X11: when none of HTTP_PROXY, http_proxy, HTTPS_PROXY and https_proxy
    has a non-empty value, the configuration read from the environment
    proxies no request, whatever NO_PROXY holds. *)
Theorem FromEnvironment_unset (getenv : string -> string) (req : URL) :
  getenv "HTTP_PROXY" = EmptyString -> getenv "http_proxy" = EmptyString ->
  getenv "HTTPS_PROXY" = EmptyString -> getenv "https_proxy" = EmptyString ->
  ProxyForURL (FromEnvironment getenv) req = Ret (None, None).
Proof.
  intros H1 H2 H3 H4. unfold ProxyForURL, candidateProxy, FromEnvironment.
  cbn [HTTPProxy HTTPSProxy getEnvAny]. rewrite H1, H2, H3, H4. cbn [String.eqb negb].
  destruct (String.eqb (Scheme req) "https"); reflexivity.
Qed.

End Outcomes.

(** * The configuration loader *)

(** X12: [getEnvAny] gives the value of the first name whose value is not
    empty, a name with an empty value being passed over like one that is not
    set; the result is empty exactly when every name has an empty value. *)
Theorem getEnvAny_first_nonempty (getenv : string -> string) (names : list string) :
  (getEnvAny getenv names = EmptyString <->
   forall n, In n names -> getenv n = EmptyString) /\
  (forall v, v <> EmptyString ->
     (getEnvAny getenv names = v <->
      exists pre n suf,
        names = (pre ++ n :: suf)%list /\
        (forall m, In m pre -> getenv m = EmptyString) /\
        getenv n = v)).
Proof.
  induction names as [|n names [IH0 IHv]].
  - split.
    + split; [intros _ n [] | reflexivity].
    + intros v Hv. split.
      * intros H. cbn in H. congruence.
      * intros (pre & n & suf & E & _). destruct pre; discriminate E.
  - cbn [getEnvAny]. destruct (String.eqb_spec (getenv n) "") as [En|En]; cbn [negb].
    + split.
      * rewrite IH0. split.
        -- intros H m [<-|Hm]; [exact En | now apply H].
        -- intros H m Hm. apply H. now right.
      * intros v Hv. rewrite (IHv v Hv). split.
        -- intros (pre & m & suf & -> & Hpre & Hm).
           exists (n :: pre), m, suf. split; [reflexivity|]. split; [|exact Hm].
           intros k [<-|Hk]; [exact En | now apply Hpre].
        -- intros (pre & m & suf & E & Hpre & Hm).
           destruct pre as [|k pre]; cbn in E; injection E as <- ->.
           ++ congruence.
           ++ exists pre, m, suf. split; [reflexivity|]. split; [|exact Hm].
              intros j Hj. apply Hpre. now right.
    + split.
      * split; [contradiction|]. intros H. exfalso. apply En, H. now left.
      * intros v Hv. split.
        -- intros <-. exists [], n, names. split; [reflexivity|]. split; [intros m []|reflexivity].
        -- intros (pre & m & suf & E & Hpre & Hm).
           destruct pre as [|k pre]; cbn in E; injection E as <- ->; [exact Hm|].
           exfalso. apply En, Hpre. now left.
Qed.

(** * Where [hasPort] sees a port *)

Lemma last_occurrence (s : string) (c : ascii) :
  lacks s c \/ exists a b, s = a ++ String c b /\ lacks b c.
Proof.
  induction s as [|x s [IH|(a & b & -> & Hb)]].
  - left. apply lacks_empty.
  - destruct (Ascii.eqb_spec x c) as [->|Hx].
    + right. exists EmptyString, s. now split.
    + left. apply lacks_String. now split.
  - right. exists (String x a), b. now split.
Qed.

(** X13: [hasPort] holds of exactly the strings that have a colon after which
    neither a colon nor a closing square bracket follows. *)
Theorem hasPort_iff (s : string) :
  hasPort s = true <->
  exists a b, s = a ++ String ":" b /\ lacks b ":" /\ lacks b "]".
Proof.
  unfold hasPort. rewrite Z.gtb_lt. split.
  - intros H. pose proof (LastIndex_bounds s "]") as Bb.
    destruct (last_occurrence s ":") as [L|(a & b & -> & Lb)].
    { rewrite (LastIndex_absent ":" s L) in H. lia. }
    exists a, b. split; [reflexivity|]. split; [exact Lb|].
    rewrite (LastIndex_last ":" a b Lb) in H.
    destruct (last_occurrence b "]") as [L|(a' & b' & -> & Lb')]; [exact L|].
    exfalso.
    change (a ++ String ":" (a' ++ String "]" b'))
      with (a ++ (String ":" a') ++ String "]" b') in H.
    rewrite <- app_assoc, (LastIndex_last "]" _ b' Lb'), len_app, len_String in H.
    pose proof (len_nonneg a'). lia.
  - intros (a & b & -> & Lc & Lb).
    rewrite (LastIndex_last ":" a b Lc).
    change (a ++ String ":" b) with (a ++ (String ":" b)).
    rewrite (LastIndex_app_absent "]" a (String ":" b))
      by (apply lacks_String; split; [discriminate | exact Lb]).
    pose proof (LastIndex_bounds a "]"). lia.
Qed.

(** * Ports and white space in the entries *)

Lemma lacks_lower (s : string) (k : ascii) :
  byte_val k < byte_val "A" \/ byte_val "z" < byte_val k ->
  lacks s k -> lacks (map_bytes lower_byte s) k.
Proof.
  intros Hk. induction s as [|x s IH]; intros H; [apply lacks_empty|].
  apply lacks_String in H as [Hx Hs]. cbn [map_bytes]. apply lacks_String.
  split; [|now apply IH].
  apply Ascii.eqb_neq. rewrite (lower_byte_keeps x k Hk). now apply Ascii.eqb_neq.
Qed.

Lemma lower_not_empty (s : string) :
  s <> EmptyString -> map_bytes lower_byte s <> EmptyString.
Proof. destruct s; [contradiction | discriminate]. Qed.

Lemma trim_left_blank (w s : string) :
  trim_left_ascii w = EmptyString -> trim_left_ascii (w ++ s) = trim_left_ascii s.
Proof.
  induction w as [|x w IH]; [reflexivity|]. cbn [append trim_left_ascii].
  destruct (asciiSpace x); [exact IH | discriminate].
Qed.

Lemma trim_left_nonblank (s w : string) :
  trim_left_ascii s <> EmptyString -> trim_left_ascii (s ++ w) = trim_left_ascii s ++ w.
Proof.
  induction s as [|x s IH]; [contradiction|]. cbn [append trim_left_ascii].
  destruct (asciiSpace x); [exact IH | reflexivity].
Qed.

Lemma trim_right_blank (w : string) :
  trim_left_ascii w = EmptyString -> trim_right_ascii w = EmptyString.
Proof.
  induction w as [|x w IH]; [reflexivity|]. cbn [trim_left_ascii trim_right_ascii].
  destruct (asciiSpace x); [|discriminate]. intros H. now rewrite (IH H).
Qed.

Lemma trim_right_app_blank (s w : string) :
  trim_left_ascii w = EmptyString -> trim_right_ascii (s ++ w) = trim_right_ascii s.
Proof.
  intros H. induction s as [|x s IH]; cbn [append trim_right_ascii].
  - now apply trim_right_blank.
  - now rewrite IH.
Qed.

Lemma trim_blanks (w1 tok w2 : string) :
  trim_left_ascii w1 = EmptyString -> trim_left_ascii w2 = EmptyString ->
  trim_right_ascii (trim_left_ascii (w1 ++ tok ++ w2))
  = trim_right_ascii (trim_left_ascii tok).
Proof.
  intros H1 H2. rewrite (trim_left_blank w1 _ H1).
  destruct (string_dec (trim_left_ascii tok) EmptyString) as [E|E].
  - rewrite (trim_left_blank tok w2 E), H2, E. reflexivity.
  - rewrite (trim_left_nonblank tok w2 E). now apply trim_right_app_blank.
Qed.

Section EntryForms.

Context {lib : GoLibrary}.

(** X14: a port written in an entry has no part in the comparison: an ASCII
    entry without colon and without white space around it makes the loop do
    the same with and without a numeric port after it. *)
Theorem entry_port_is_ignored (a h port : string) :
  isASCII h = true ->
  h <> EmptyString ->
  lacks h ":" ->
  trim_left_ascii h = h -> trim_right_ascii h = h ->
  all_digits port = true ->
  noProxyEntry a (h ++ ":" ++ port) = noProxyEntry a h.
Proof.
  intros Ha Hne Hc Tl Tr Hp.
  destruct (digits_lack_separators port Hp) as (Pc & _ & Pb).
  pose proof (all_digits_ascii port Hp) as Hpa.
  assert (N1 : strings_ToLower (strings_TrimSpace h) = map_bytes lower_byte h).
  { unfold strings_TrimSpace, strings_ToLower. now rewrite Ha, Tl, Tr, Ha. }
  assert (N2 : strings_ToLower (strings_TrimSpace (h ++ ":" ++ port))
               = map_bytes lower_byte h ++ String ":" port).
  { change (h ++ ":" ++ port) with (h ++ String ":" port).
    unfold strings_TrimSpace.
    replace (isASCII (h ++ String ":" port)) with true
      by (symmetry; rewrite isASCII_app, Ha; cbn [isASCII andb]; exact Hpa).
    rewrite trim_left_app by reflexivity. rewrite Tl.
    rewrite trim_right_keep by (discriminate || now apply trim_right_port).
    unfold strings_ToLower.
    replace (isASCII (h ++ String ":" port)) with true
      by (symmetry; rewrite isASCII_app, Ha; cbn [isASCII andb]; exact Hpa).
    rewrite map_bytes_app. cbn [map_bytes]. now rewrite (lower_digits port Hp). }
  assert (H1 : hostOnly h = Ret (map_bytes lower_byte h)).
  { unfold hostOnly. rewrite N1. unfold stripPort, hasPort.
    rewrite (LastIndex_absent ":" _
               (lacks_lower h ":" ltac:(vm_compute; left; reflexivity) Hc)).
    pose proof (LastIndex_bounds (map_bytes lower_byte h) "]").
    replace (-1 >? strings_LastIndex (map_bytes lower_byte h) "]") with false
      by (symmetry; rewrite Z.gtb_ltb; apply Z.ltb_ge; lia).
    reflexivity. }
  assert (H2 : hostOnly (h ++ ":" ++ port) = Ret (map_bytes lower_byte h)).
  { unfold hostOnly. rewrite N2. now apply stripPort_port. }
  rewrite (noProxyEntry_rule a h _ ltac:(rewrite N1; now apply lower_not_empty) H1).
  rewrite (noProxyEntry_rule a (h ++ ":" ++ port) _
             ltac:(rewrite N2; apply app_not_empty) H2).
  reflexivity.
Qed.

(** X15: white space around an ASCII entry has no part in the comparison. *)
Theorem entry_spaces_are_ignored (a w1 tok w2 : string) :
  isASCII w1 = true -> isASCII tok = true -> isASCII w2 = true ->
  trim_left_ascii w1 = EmptyString -> trim_left_ascii w2 = EmptyString ->
  noProxyEntry a (w1 ++ tok ++ w2) = noProxyEntry a tok.
Proof.
  intros A1 At A2 H1 H2. apply noProxyEntry_normal_form.
  unfold strings_TrimSpace. rewrite At.
  replace (isASCII (w1 ++ tok ++ w2)) with true
    by (symmetry; now rewrite !isASCII_app, A1, At, A2).
  now rewrite trim_blanks.
Qed.

End EntryForms.

(** * The further properties run on the reference library *)

Lemma canonicalAddr_splits_witness :
  net_SplitHostPort (canonicalAddr (lib := std) (request "https" "example.com:8443"))
  = inl ("example.com", "8443") /\
  net_SplitHostPort (canonicalAddr (lib := std) (request "http" "[::1]"))
  = inl ("::1", "80").
Proof.
  split.
  - apply (@canonicalAddr_splits std (request "https" "example.com:8443")); reflexivity.
  - apply (@canonicalAddr_splits std (request "http" "[::1]")); reflexivity.
Defined.

Lemma loopback_request_not_proxied_witness :
  ProxyForURL (lib := std) (mkConfig "proxy" "" "") (request "http" "127.0.0.1:8080")
  = Ret (None, None).
Proof.
  apply (@loopback_request_not_proxied std); [reflexivity | reflexivity |].
  right. exists [0;0;0;0;0;0;0;0;0;0;255;255;127;0;0;1]. split; [reflexivity|].
  left. exists 0, 0, 1. reflexivity.
Defined.

Lemma localhost_request_not_proxied_witness :
  ProxyForURL (lib := std) (mkConfig "proxy" "" "") (request "http" "localhost:8080")
  = Ret (None, None) /\
  ProxyForURL (lib := std) (mkConfig "proxy" "" "") (request "https" "localhost")
  = Ret (None, None).
Proof.
  split.
  - apply (@localhost_request_not_proxied std _ _ "8080"); [reflexivity | now right].
  - apply (@localhost_request_not_proxied std _ _ ""); [reflexivity | now left].
Defined.

Lemma port_is_ignored_witness :
  useProxy (lib := std) (mkConfig "proxy" "" "example.com") "example.com:80"
  = useProxy (lib := std) (mkConfig "proxy" "" "example.com") "example.com:8080".
Proof.
  apply (@port_is_ignored std (mkConfig "proxy" "" "example.com") "example.com" "80" "8080");
    reflexivity.
Defined.

Lemma NoProxy_case_insensitive_witness :
  useProxy (lib := std) (mkConfig "proxy" "" "example.com") "www.example.com:80"
  = useProxy (lib := std) (mkConfig "proxy" "" "Example.COM") "www.example.com:80".
Proof.
  apply (@NoProxy_case_insensitive std "proxy" "" "Example.COM" "www.example.com:80").
  reflexivity.
Defined.

Lemma NoProxy_union_witness :
  useProxy (lib := std) (mkConfig "proxy" "" "foobar.com,.barbaz.net") "barbaz.net:80"
  = Ret false.
Proof.
  apply (@NoProxy_union std "proxy" "" "foobar.com" ".barbaz.net" "barbaz.net:80");
    [discriminate | discriminate |].
  right. reflexivity.
Defined.

Lemma leading_dot_is_redundant_witness :
  useProxy (lib := std) (mkConfig "proxy" "" "example.com") "example.com:80"
  = useProxy (lib := std) (mkConfig "proxy" "" ".example.com") "example.com:80".
Proof.
  apply (@leading_dot_is_redundant std "proxy" "" "example.com" ".example.com"
           "example.com:80" "example.com" ".example.com" "example.com");
    first [reflexivity | discriminate].
Defined.

Lemma known_scheme_is_returned_witness :
  ProxyForURL (lib := std) (mkConfig "https://cache.corp.example.com" "" "")
              (request "http" "example.com")
  = Ret (Some (mkURL "https" "" None "cache.corp.example.com" "" "" ""), None).
Proof.
  apply (@known_scheme_is_returned std); [discriminate | reflexivity | reflexivity |].
  right. left. reflexivity.
Defined.

Lemma FromEnvironment_unset_witness :
  ProxyForURL (lib := std)
    (FromEnvironment (fun n => if String.eqb n "NO_PROXY" then "example.com" else ""))
    (request "http" "golang.org")
  = Ret (None, None).
Proof. apply (@FromEnvironment_unset std); reflexivity. Defined.

Lemma getEnvAny_first_nonempty_witness :
  getEnvAny (fun n => if String.eqb n "http_proxy" then "proxy" else "")
            ["HTTP_PROXY"; "http_proxy"]
  = "proxy".
Proof.
  apply (proj2 (getEnvAny_first_nonempty _ _)); [discriminate|].
  exists ["HTTP_PROXY"], "http_proxy", []. split; [reflexivity|].
  split; [|reflexivity]. intros m [<-|[]]. reflexivity.
Defined.

Lemma entry_port_is_ignored_witness :
  noProxyEntry (lib := std) "example.com" "example.com:8080"
  = noProxyEntry (lib := std) "example.com" "example.com".
Proof.
  apply (@entry_port_is_ignored std "example.com" "example.com" "8080");
    first [reflexivity | discriminate].
Defined.

Lemma entry_spaces_are_ignored_witness :
  noProxyEntry (lib := std) "barbaz.net" " .barbaz.net "
  = noProxyEntry (lib := std) "barbaz.net" ".barbaz.net".
Proof.
  apply (@entry_spaces_are_ignored std "barbaz.net" " " ".barbaz.net" " "); reflexivity.
Defined.
